(** * The event-log pipeline of [pipeline.py]

    [pipeline.py] drives the pm4py process-mining library over a folder of
    XES event logs: four discovery calls per log, five conformance metrics
    per discovered net, one PNG and one PNML file per net, and two summary
    files per log.  Nothing of the mining itself lives in the script; what
    it owns is the order of the calls, the handling of their failures and
    the files it writes.

    The development embeds exactly that:

    - library and operating-system calls are fields of two interfaces,
      [PM4Py] and [OS]; each returns a Python value or raises;
    - the script's functions are written in a state-and-exception monad
      over a [World]: the output file system, the clock, and the history
      of the calls made so far;
    - exceptions are the instances of Python's [Exception], which is what
      [except Exception] catches; console output ([print]) is not part of
      the model;
    - paths follow [posixpath]: the separator is [/]. *)

From stdpp Require Import base strings list gmap sorting.

Open Scope string_scope.

(** ** Python values *)

Module Py.

(** The exceptions the script can meet.  [LibraryError] stands for any
    [Exception] raised inside pm4py or graphviz. *)
Inductive exn : Type :=
  | KeyError (key : string)
  | ValueError (msg : string)
  | FileExistsError (path : string)
  | IsADirectoryError (path : string)
  | FileNotFoundError (path : string)
  | LibraryError (msg : string).

(** Outcome of evaluating a Python expression. *)
Inductive result (A : Type) : Type :=
  | Ok (a : A)
  | Raise (e : exn).
Arguments Ok {A} a.
Arguments Raise {A} e.

Definition is_ok {A} (r : result A) : bool :=
  match r with Ok _ => true | Raise _ => false end.

(** *** [str.startswith] and [str.endswith] *)

Definition startswith (s prefix : string) : bool := String.prefix prefix s.

Fixpoint endswith (s suffix : string) : bool :=
  String.eqb s suffix ||
  match s with
  | EmptyString => false
  | String _ s' => endswith s' suffix
  end.

(** *** Dictionaries

    A [dict] keeps its keys in insertion order, and the script iterates
    over [items()]: an association list without repeated keys. *)

Definition dict (V : Type) : Type := list (string * V).

Fixpoint dict_get {V} (d : dict V) (k : string) : option V :=
  match d with
  | [] => None
  | (k', v) :: d' => if String.eqb k' k then Some v else dict_get d' k
  end.

(** [d[k] = v]: an existing key keeps its position. *)
Fixpoint dict_set {V} (k : string) (v : V) (d : dict V) : dict V :=
  match d with
  | [] => [(k, v)]
  | (k', v') :: d' =>
      if String.eqb k' k then (k, v) :: d' else (k', v') :: dict_set k v d'
  end.

Definition keys {V} (d : dict V) : list string := map fst d.

(** [d[k]] as an expression. *)
Definition subscript {V} (d : dict V) (k : string) : result V :=
  match dict_get d k with
  | Some v => Ok v
  | None => Raise (KeyError k)
  end.

(** *** [posixpath.join] with two arguments *)

Definition path_join (a b : string) : string :=
  if startswith b "/" then b
  else if String.eqb a "" || endswith a "/" then a ++ b
  else a ++ "/" ++ b.

(** *** [list.sort(key=...)]

    Python's sort is stable and compares keys with [<] only; on strings
    [<] is the lexicographic order of the code points.  Insertion from the
    right, each element going in front of the first one that is not
    smaller, is the stable sort. *)

Fixpoint insert_by {A} (key : A -> string) (x : A) (l : list A) : list A :=
  match l with
  | [] => [x]
  | y :: l' =>
      if String.ltb (key y) (key x) then y :: insert_by key x l'
      else x :: y :: l'
  end.

Definition sort_by {A} (key : A -> string) (l : list A) : list A :=
  foldr (insert_by key) [] l.

End Py.

Import Py.

(** ** The two interfaces *)

(** What the script imports from pm4py.  The types are opaque to the
    script; [float] is Python's, with the three ways the script turns one
    into text. *)
Class PM4Py : Type := {
  EventLog : Type;
  PetriNet : Type;
  Marking : Type;
  ProcessTree : Type;
  Gviz : Type;
  float : Type;
  fsub : float -> float -> float;
  format_3f : float -> string;
  str_float : float -> string;
  read_xes : string -> result EventLog;
  alpha_miner_apply : EventLog -> result (PetriNet * Marking * Marking);
  inductive_miner_apply : EventLog -> result ProcessTree;
  convert_to_petri_net : ProcessTree -> result (PetriNet * Marking * Marking);
  heuristics_miner_apply : EventLog -> result (PetriNet * Marking * Marking);
  ilp_miner_apply : EventLog -> result (PetriNet * Marking * Marking);
  fitness_alignments :
    EventLog -> PetriNet -> Marking -> Marking -> result (dict float);
  fitness_token_based_replay :
    EventLog -> PetriNet -> Marking -> Marking -> result (dict float);
  precision_alignments :
    EventLog -> PetriNet -> Marking -> Marking -> result float;
  precision_token_based_replay :
    EventLog -> PetriNet -> Marking -> Marking -> result float;
  generalization_tbr :
    EventLog -> PetriNet -> Marking -> Marking -> result float;
  pn_visualizer_apply : PetriNet -> Marking -> Marking -> result Gviz;
}.

(** An [os.DirEntry], as far as [main] looks at it. *)
Record DirEntry : Type := {
  name : string;
  path : string;
  is_file : bool;
}.

(** What the script asks of the operating system on the input side:
    the listing of a folder, in the order [os.scandir] yields it, and the
    reading of [time.time()] at each successive call. *)
Class OS `{PM4Py} : Type := {
  scandir : string -> result (list DirEntry);
  time_time : nat -> float;
}.

(** ** The world the script runs in *)

Declare Scope py_scope.

Section Pipeline.

Context `{Platform : OS}.

(** What a written file holds.  Each [f.write] of the script writes one
    newline-terminated line, and each [writerow] one CSV record, so a text
    file is kept as its lines and a CSV file as its records (lists of
    fields, before the csv module quotes and joins them). *)
Inductive content : Type :=
  | Lines (ls : list string)
  | Rows (rs : list (list string))
  | Png (gviz : Gviz)
  | Pnml (net : PetriNet) (im fm : Marking).

Inductive node : Type :=
  | Dir
  | File (c : content).

(** The library functions whose calls are recorded. *)
Inductive libfn : Type :=
  | ScanDir | ReadXes
  | AlphaApply | InductiveApply | ConvertToPetriNet | HeuristicsApply
  | IlpApply
  | FitnessAlignments | FitnessTokenBasedReplay | PrecisionAlignments
  | PrecisionTokenBasedReplay | GeneralizationTbr
  | VisualizerApply | VisualizerSave | WritePnml.

Inductive event : Type :=
  | EvProcess (file_path output_dir : string)
  | EvCall (f : libfn)
  | EvMakedirs (p : string)
  | EvOpen (p : string)
  | EvWrite (p : string).

Record World : Type := {
  fs : gmap string node;
  ticks : nat;
  history : list event;
}.

Definition set_fs (m : gmap string node) (w : World) : World :=
  {| fs := m; ticks := ticks w; history := history w |}.

(** ** State and exceptions *)

Definition M (A : Type) : Type := World -> result A * World.

Definition ret {A} (a : A) : M A := fun w => (Ok a, w).

Definition raise {A} (e : exn) : M A := fun w => (Raise e, w).

Definition bind {A B} (m : M A) (k : A -> M B) : M B :=
  fun w =>
    match m w with
    | (Ok a, w') => k a w'
    | (Raise e, w') => (Raise e, w')
    end.

(** [try: m except Exception as e: h e] *)
Definition try_except {A} (m : M A) (h : exn -> M A) : M A :=
  fun w =>
    match m w with
    | (Ok a, w') => (Ok a, w')
    | (Raise e, w') => h e w'
    end.

Definition lift {A} (r : result A) : M A := fun w => (r, w).

Notation "x <- c1 ;; c2" := (bind c1 (fun x => c2))
  (at level 100, c1 at next level, c2 at level 200, right associativity)
  : py_scope.
Notation "c1 ;; c2" := (bind c1 (fun _ => c2))
  (at level 100, c2 at level 200, right associativity) : py_scope.
Open Scope py_scope.

(** [for x in l: s = body s x] *)
Fixpoint for_each {A S} (l : list A) (s : S) (body : S -> A -> M S) : M S :=
  match l with
  | [] => ret s
  | x :: l' => s' <- body s x ;; for_each l' s' body
  end.

(** *** Primitive effects *)

Definition record (e : event) : M unit :=
  fun w =>
    (Ok tt, {| fs := fs w; ticks := ticks w; history := history w ++ [e] |}).

(** A call into the library: recorded, then its outcome. *)
Definition call {A} (f : libfn) (r : result A) : M A :=
  record (EvCall f) ;; lift r.

(** [time.time()] *)
Definition time : M float :=
  fun w =>
    (Ok (time_time (ticks w)),
     {| fs := fs w; ticks := S (ticks w); history := history w |}).

(** [os.makedirs(p, exist_ok=exist_ok)] *)
Definition makedirs (p : string) (exist_ok : bool) : M unit :=
  record (EvMakedirs p) ;;
  fun w =>
    match fs w !! p with
    | Some Dir => if exist_ok then (Ok tt, w) else (Raise (FileExistsError p), w)
    | Some (File _) => (Raise (FileExistsError p), w)
    | None => (Ok tt, set_fs (<[p := Dir]> (fs w)) w)
    end.

(** Opening [p] for writing creates or truncates it; [c] is the empty
    content of the kind of file being written. *)
Definition open_w (p : string) (c : content) : M unit :=
  record (EvOpen p) ;;
  fun w =>
    match fs w !! p with
    | Some Dir => (Raise (IsADirectoryError p), w)
    | _ => (Ok tt, set_fs (<[p := File c]> (fs w)) w)
    end.

(** [f.write(line + "\n")] on the open text file [p]. *)
Definition f_write (p : string) (line : string) : M unit :=
  record (EvWrite p) ;;
  fun w =>
    match fs w !! p with
    | Some (File (Lines ls)) =>
        (Ok tt, set_fs (<[p := File (Lines (ls ++ [line]))]> (fs w)) w)
    | _ => (Raise (ValueError "I/O operation on closed file"), w)
    end.

(** [csv.writer.writerow(fields)] on the open CSV file [p]. *)
Definition csv_writerow (p : string) (fields : list string) : M unit :=
  record (EvWrite p) ;;
  fun w =>
    match fs w !! p with
    | Some (File (Rows rs)) =>
        (Ok tt, set_fs (<[p := File (Rows (rs ++ [fields]))]> (fs w)) w)
    | _ => (Raise (ValueError "I/O operation on closed file"), w)
    end.

(** ** The script *)

Definition net_and_markings : Type := PetriNet * Marking * Marking.

Definition load_event_log (file_path : string) : M EventLog :=
  event_log <- call ReadXes (read_xes file_path) ;;
  ret event_log.

Definition discover_models (event_log : EventLog) (output_dir : string)
  : M (dict net_and_markings) :=
  let execution_times : dict float := [] in
  (* Alpha Miner *)
  alpha_start_time <- time ;;
  alpha <- call AlphaApply (alpha_miner_apply event_log) ;;
  alpha_end <- time ;;
  let alpha_execution_time := fsub alpha_end alpha_start_time in
  let execution_times := dict_set "alpha" alpha_execution_time execution_times in
  (* Inductive Miner (returns process tree) *)
  inductive_start_time <- time ;;
  process_tree <- call InductiveApply (inductive_miner_apply event_log) ;;
  inductive <- call ConvertToPetriNet (convert_to_petri_net process_tree) ;;
  inductive_end <- time ;;
  let inductive_execution_time := fsub inductive_end inductive_start_time in
  let execution_times :=
    dict_set "inductive" inductive_execution_time execution_times in
  (* Heuristics Miner *)
  heuristics_start_time <- time ;;
  heuristics <- call HeuristicsApply (heuristics_miner_apply event_log) ;;
  heuristics_end <- time ;;
  let heuristics_execution_time := fsub heuristics_end heuristics_start_time in
  let execution_times :=
    dict_set "heuristics" heuristics_execution_time execution_times in
  (* ILP Miner *)
  ilp_start_time <- time ;;
  ilp <- call IlpApply (ilp_miner_apply event_log) ;;
  ilp_end <- time ;;
  let ilp_execution_time := fsub ilp_end ilp_start_time in
  let execution_times := dict_set "ilp" ilp_execution_time execution_times in
  (* Ensure output directory exists *)
  makedirs output_dir true ;;
  (* Create output file path and write to TXT file *)
  let f := path_join output_dir "execution_times.txt" in
  open_w f (Lines []) ;;
  f_write f "Algorithm Execution Times (seconds)" ;;
  f_write f "================================" ;;
  for_each execution_times tt (fun _ '(algorithm, exec_time) =>
    f_write f (algorithm ++ ": " ++ format_3f exec_time)) ;;
  ret [ ("alpha", alpha);
        ("inductive", inductive);
        ("heuristics", heuristics);
        ("ilp", ilp) ].

(** The values a metrics dictionary holds. *)
Inductive value : Type :=
  | VNone
  | VStr (s : string)
  | VFloat (x : float).

Definition calc_conformance (event_log : EventLog) (model : PetriNet)
    (initial_marking final_marking : Marking) (algorithm_name : string)
  : M (dict value) :=
  (* Alignment-Based Fitness *)
  fitness_ab <-
    try_except
      (r <- call FitnessAlignments
              (fitness_alignments event_log model initial_marking final_marking) ;;
       x <- lift (subscript r "log_fitness") ;;
       ret (VFloat x))
      (fun e => ret VNone) ;;
  (* Token-Based Fitness *)
  fitness_tbr <-
    try_except
      (r <- call FitnessTokenBasedReplay
              (fitness_token_based_replay
                 event_log model initial_marking final_marking) ;;
       x <- lift (subscript r "log_fitness") ;;
       ret (VFloat x))
      (fun e => ret VNone) ;;
  (* Alignment-Based Precision *)
  precision_ab <-
    try_except
      (x <- call PrecisionAlignments
              (precision_alignments
                 event_log model initial_marking final_marking) ;;
       ret (VFloat x))
      (fun e => ret VNone) ;;
  (* Token-Based Precision *)
  precision_tbr <-
    try_except
      (x <- call PrecisionTokenBasedReplay
              (precision_token_based_replay
                 event_log model initial_marking final_marking) ;;
       ret (VFloat x))
      (fun e => ret VNone) ;;
  (* Token-Based Generalization *)
  gen_tbr <-
    try_except
      (x <- call GeneralizationTbr
              (generalization_tbr event_log model initial_marking final_marking) ;;
       ret (VFloat x))
      (fun e => ret VNone) ;;
  let metrics :=
    [ ("algorithm", VStr algorithm_name);
      ("fitness_alignments", fitness_ab);
      ("fitness_token_based", fitness_tbr);
      ("precision_alignments", precision_ab);
      ("precision_token_based", precision_tbr);
      ("generalization", gen_tbr) ] in
  ret metrics.

(** *** [csv.DictWriter] *)

(** How the csv writer prints a field: [None] as the empty string, a
    string as it is, anything else through [str]. *)
Definition csv_field (v : value) : string :=
  match v with
  | VNone => ""
  | VStr s => s
  | VFloat x => str_float x
  end.

(** [DictWriter._dict_to_list] with the defaults [restval=''] and
    [extrasaction='raise']. *)
Definition dict_to_list (fieldnames : list string) (rowdict : dict value)
  : result (list value) :=
  if forallb (fun k => existsb (String.eqb k) fieldnames) (keys rowdict)
  then Ok (map (fun k => default (VStr "") (dict_get rowdict k)) fieldnames)
  else Raise (ValueError "dict contains fields not in fieldnames").

Definition writeheader (p : string) (fieldnames : list string) : M unit :=
  csv_writerow p fieldnames.

Definition writerow (p : string) (fieldnames : list string)
    (rowdict : dict value) : M unit :=
  row <- lift (dict_to_list fieldnames rowdict) ;;
  csv_writerow p (map csv_field row).

Definition fieldnames : list string :=
  [ "algorithm";
    "fitness_alignments";
    "fitness_token_based";
    "precision_alignments";
    "precision_token_based";
    "generalization" ].

Definition save_conformance_to_csv (metrics_list : list (dict value))
    (output_dir : string) : M unit :=
  (* Ensure output directory exists *)
  makedirs output_dir true ;;
  (* Create output file path *)
  let output_file := path_join output_dir "conformance_metrics.csv" in
  (* Write to CSV *)
  open_w output_file (Rows []) ;;
  writeheader output_file fieldnames ;;
  for_each metrics_list tt (fun _ metrics =>
    writerow output_file fieldnames metrics).

(** [pm4py.write_pnml]: the library writes the file itself. *)
Definition write_pnml (petri_net : PetriNet) (initial_marking final_marking : Marking)
    (output_file : string) : M unit :=
  call WritePnml (Ok tt) ;;
  open_w output_file (Pnml petri_net initial_marking final_marking).

Definition export_pnml (petri_net : PetriNet)
    (initial_marking final_marking : Marking) (algorithm_name : string)
    (output_dir : string) : M string :=
  (* Ensure output directory exists *)
  makedirs output_dir true ;;
  (* Create output file path *)
  let output_file := path_join output_dir (algorithm_name ++ "_model.pnml") in
  (* Export the Petri net as PNML file *)
  write_pnml petri_net initial_marking final_marking output_file ;;
  ret output_file.

(** [pn_visualizer.save]: copies the rendered picture to its place. *)
Definition pn_visualizer_save (gviz : Gviz) (output_file : string) : M unit :=
  call VisualizerSave (Ok tt) ;;
  open_w output_file (Png gviz).

Definition visualize_model (model : PetriNet)
    (initial_marking final_marking : Marking) (algorithm_name : string)
    (output_dir : string) : M unit :=
  (* Ensure output directory exists *)
  makedirs output_dir true ;;
  (* Visualize as Petri net *)
  gviz <- call VisualizerApply
            (pn_visualizer_apply model initial_marking final_marking) ;;
  (* Save to file *)
  pn_visualizer_save gviz
    (path_join output_dir (algorithm_name ++ "_petri_net.png")).

(** The body of the loop [for algorithm_name, (model, initial_marking,
    final_marking) in models.items()] of [process_event_log]; the loop
    carries the two collections it fills. *)
Definition process_model (event_log : EventLog) (output_dir : string)
    (acc : list (dict value) * dict string)
    (item : string * net_and_markings)
  : M (list (dict value) * dict string) :=
  let '(conformance_metrics, pnml_files) := acc in
  let '(algorithm_name, (model, initial_marking, final_marking)) := item in
  (* Calculate conformance metrics *)
  metrics <- calc_conformance
               event_log model initial_marking final_marking algorithm_name ;;
  let conformance_metrics := (conformance_metrics ++ [metrics])%list in
  (* Visualize the model *)
  visualize_model
    model initial_marking final_marking algorithm_name output_dir ;;
  (* Export as PNML *)
  pnml_file <- export_pnml
                 model initial_marking final_marking algorithm_name
                 output_dir ;;
  let pnml_files := dict_set algorithm_name pnml_file pnml_files in
  ret (conformance_metrics, pnml_files).

Definition process_event_log (file_path output_dir : string)
  : M (dict net_and_markings * dict string) :=
  record (EvProcess file_path output_dir) ;;
  (* Load the event log *)
  event_log <- load_event_log file_path ;;
  (* Discover models using the algorithms *)
  models <- discover_models event_log output_dir ;;
  let conformance_metrics : list (dict value) := [] in
  (* Process and export each model *)
  let pnml_files : dict string := [] in
  acc <- for_each models (conformance_metrics, pnml_files)
           (process_model event_log output_dir) ;;
  let '(conformance_metrics, pnml_files) := acc in
  save_conformance_to_csv conformance_metrics output_dir ;;
  ret (models, pnml_files).

(** The test [main] applies to each directory entry. *)
Definition is_xes_file (entry : DirEntry) : bool :=
  is_file entry && endswith (name entry) ".xes".

Definition results_dict : Type := dict (dict net_and_markings * dict string).

(** The body of the loop [for file_entry in xes_files] of [main]. *)
Definition process_file (output_base_dir : string) (results : results_dict)
    (file_entry : DirEntry) : M results_dict :=
  let output_directory := path_join output_base_dir (name file_entry) in
  r <- process_event_log (path file_entry) output_directory ;;
  ret (dict_set (name file_entry) r results).

Definition main (input_folder output_base_dir : string) : M results_dict :=
  (* Get all XES files and sort them alphabetically by filename *)
  entries <- call ScanDir (scandir input_folder) ;;
  let xes_files := List.filter is_xes_file entries in
  (* Sort the files by name *)
  let xes_files := sort_by name xes_files in
  let results : results_dict := [] in
  (* Process each file in order *)
  for_each xes_files results (process_file output_base_dir).

End Pipeline.

Notation "x <- c1 ;; c2" := (bind c1 (fun x => c2))
  (at level 100, c1 at next level, c2 at level 200, right associativity)
  : py_scope.
Notation "c1 ;; c2" := (bind c1 (fun _ => c2))
  (at level 100, c2 at level 200, right associativity) : py_scope.
Open Scope py_scope.

Arguments path_join : simpl never.
Arguments Dir {_}.
Arguments VNone {_}.
Arguments VStr {_} s.


(** * Vocabulary of the properties *)

(** What [path_join a] puts in front of a relative second argument. *)
Definition dir_prefix (a : string) : string :=
  if String.eqb a "" || endswith a "/" then a else a ++ "/".

(** Ascending in Python's order on the keys. *)
Definition key_le {A} (key : A -> string) (x y : A) : Prop :=
  String.le (key x) (key y).

Section Vocabulary.

Context `{Platform : OS}.

#[local] Open Scope list_scope.

(** ** Worlds *)

(** A directory or a file: all that the success of [makedirs] and of
    opening for writing depends on. *)
Definition is_dir (n : node) : bool :=
  match n with Dir => true | File _ => false end.

Definition kinds (w : World) : gmap string bool := is_dir <$> fs w.

Definition add_history (t : list event) (w : World) : World :=
  {| fs := fs w; ticks := ticks w; history := history w ++ t |}.

(** [effect P T w w']: from [w] to [w'] the history grew by events that
    satisfy [P], only paths in [T] changed, and no path changed from
    directory to file or back, or disappeared. *)
Definition effect (P : event -> Prop) (T : string -> Prop) (w w' : World)
  : Prop :=
  (exists t, history w' = history w ++ t /\ Forall P t)
  /\ (forall p, ~ T p -> fs w' !! p = fs w !! p)
  /\ kinds w ⊆ kinds w'.

(** Every run of [m], whatever its outcome, is in [R]. *)
Definition respects {A} (R : relation World) (m : M A) : Prop :=
  forall w r w', m w = (r, w') -> R w w'.

(** The events that happen inside [process_event_log]: every event but
    the entry into it and the listing of the input folder. *)
Definition inner (e : event) : Prop :=
  match e with
  | EvProcess _ _ | EvCall ScanDir => False
  | _ => True
  end.

(** The number of times the input side was listed. *)
Definition listings (h : list event) : nat :=
  length
    (List.filter
       (fun e => match e with EvCall ScanDir => true | _ => false end) h).

Definition any_event (e : event) : Prop := True.

Definition any_path (p : string) : Prop := True.


(** Every path but the listed ones. *)
Definition apart_from (ps : list string) (p : string) : Prop := p ∉ ps.

(** The arguments of the calls of [process_event_log], in order. *)
Definition processed (h : list event) : list (string * string) :=
  flat_map
    (fun e => match e with EvProcess fp od => [(fp, od)] | _ => [] end) h.

(** [m2] succeeds wherever [m1] has succeeded before: if a run of [m1]
    returned, [m2] returns from any world that has at least the
    directories and files that run left behind, with a related result and
    without creating anything. *)
Definition replays {A B} (Q : A -> B -> Prop) (m1 : M A) (m2 : M B) : Prop :=
  forall s a s' t,
    m1 s = (Ok a, s') -> kinds s' ⊆ kinds t ->
    exists b t', m2 t = (Ok b, t') /\ Q a b /\ kinds t' = kinds t.

(** ** Discovery *)

(** The five discovery calls of [discover_models], in the order of the
    source, without the clock and the files. *)
Definition discovery_calls (event_log : EventLog)
  : result (dict net_and_markings) :=
  match alpha_miner_apply event_log with
  | Raise e => Raise e
  | Ok alpha =>
  match inductive_miner_apply event_log with
  | Raise e => Raise e
  | Ok process_tree =>
  match convert_to_petri_net process_tree with
  | Raise e => Raise e
  | Ok inductive =>
  match heuristics_miner_apply event_log with
  | Raise e => Raise e
  | Ok heuristics =>
  match ilp_miner_apply event_log with
  | Raise e => Raise e
  | Ok ilp =>
      Ok [ ("alpha", alpha); ("inductive", inductive);
           ("heuristics", heuristics); ("ilp", ilp) ]
  end end end end end.

Definition execution_times_file (output_dir : string) : string :=
  path_join output_dir "execution_times.txt".

Definition conformance_file (output_dir : string) : string :=
  path_join output_dir "conformance_metrics.csv".

Definition png_file (output_dir algorithm_name : string) : string :=
  path_join output_dir (algorithm_name ++ "_petri_net.png")%string.

Definition pnml_file (output_dir algorithm_name : string) : string :=
  path_join output_dir (algorithm_name ++ "_model.pnml")%string.

(** The elapsed time between the clock readings number [i] and [S i]. *)
Definition elapsed (i : nat) : float := fsub (time_time (S i)) (time_time i).

(** The lines of the execution-times file when discovery starts at clock
    reading number [t]. *)
Definition timing_lines (t : nat) : list string :=
  [ "Algorithm Execution Times (seconds)";
    "================================";
    ("alpha: " ++ format_3f (elapsed t))%string;
    ("inductive: " ++ format_3f (elapsed (2 + t)))%string;
    ("heuristics: " ++ format_3f (elapsed (4 + t)))%string;
    ("ilp: " ++ format_3f (elapsed (6 + t)))%string ].

Definition discovery_events (output_dir : string) : list event :=
  [ EvCall AlphaApply; EvCall InductiveApply; EvCall ConvertToPetriNet;
    EvCall HeuristicsApply; EvCall IlpApply;
    EvMakedirs output_dir ]
  ++ EvOpen (execution_times_file output_dir)
  :: replicate 6 (EvWrite (execution_times_file output_dir)).

(** The calls that come after discovery. *)
Definition after_discovery (e : event) : bool :=
  match e with
  | EvCall
      (FitnessAlignments | FitnessTokenBasedReplay | PrecisionAlignments
      | PrecisionTokenBasedReplay | GeneralizationTbr
      | VisualizerApply | VisualizerSave | WritePnml) => true
  | _ => false
  end.

(** ** Conformance *)

Definition log_fitness (r : result (dict float)) : result float :=
  match r with
  | Ok d => subscript d "log_fitness"
  | Raise e => Raise e
  end.

(** The five metric computations of [calc_conformance], each the body of
    one [try], in the order of the CSV columns. *)
Definition metric_computations (event_log : EventLog) (model : PetriNet)
    (initial_marking final_marking : Marking) : list (result float) :=
  [ log_fitness
      (fitness_alignments event_log model initial_marking final_marking);
    log_fitness
      (fitness_token_based_replay
         event_log model initial_marking final_marking);
    precision_alignments event_log model initial_marking final_marking;
    precision_token_based_replay event_log model initial_marking final_marking;
    generalization_tbr event_log model initial_marking final_marking ].

Definition metric_keys : list string :=
  [ "fitness_alignments"; "fitness_token_based"; "precision_alignments";
    "precision_token_based"; "generalization" ].

(** What a guarded computation leaves in its variable. *)
Definition recorded (r : result float) : value :=
  match r with
  | Ok x => VFloat x
  | Raise _ => VNone
  end.

Definition metrics_of (algorithm_name : string) (event_log : EventLog)
    (model : PetriNet) (initial_marking final_marking : Marking)
  : dict value :=
  ("algorithm", VStr algorithm_name)
  :: zip metric_keys
       (map recorded
          (metric_computations event_log model initial_marking final_marking)).

Definition conformance_calls : list event :=
  [ EvCall FitnessAlignments; EvCall FitnessTokenBasedReplay;
    EvCall PrecisionAlignments; EvCall PrecisionTokenBasedReplay;
    EvCall GeneralizationTbr ].

(** The CSV record of one discovered model. *)
Definition csv_record (event_log : EventLog) (item : string * net_and_markings)
  : list string :=
  let '(algorithm_name, (model, initial_marking, final_marking)) := item in
  algorithm_name
  :: map (fun r => csv_field (recorded r))
       (metric_computations event_log model initial_marking final_marking).

(** The record the csv writer makes of a metrics dictionary. *)
Definition written_as (metrics : dict value) (fields : list string) : Prop :=
  exists row,
    dict_to_list fieldnames metrics = Ok row /\ fields = map csv_field row.

(** The metrics dictionaries of the discovered models, in their order. *)
Definition metrics_list_of (event_log : EventLog)
    (models : dict net_and_markings) : list (dict value) :=
  map (fun item : string * net_and_markings =>
         metrics_of item.1 event_log item.2.1.1 item.2.1.2 item.2.2)
      models.

(** The world in which [process_event_log] starts discovery. *)
Definition entered (file_path output_dir : string) (w : World) : World :=
  add_history [EvProcess file_path output_dir; EvCall ReadXes] w.

(** ** Selection *)

(** The files [main] processes, in its order. *)
Definition xes_files (entries : list DirEntry) : list DirEntry :=
  sort_by name (List.filter is_xes_file entries).

Definition call_of (output_base_dir : string) (file_entry : DirEntry)
  : string * string :=
  (path file_entry, path_join output_base_dir (name file_entry)).

End Vocabulary.
(** ** A small concrete library and platform

    Used to run the script on concrete inputs.  A net is the name of the
    miner that found it, a float a number of milliseconds, and [fails]
    tells which library function raises on which net (or path). *)

Module Demo.

Definition digit (n : nat) : string :=
  match n with
  | 0 => "0" | 1 => "1" | 2 => "2" | 3 => "3" | 4 => "4"
  | 5 => "5" | 6 => "6" | 7 => "7" | 8 => "8" | _ => "9"
  end.

(** A number of milliseconds below ten seconds, as seconds with three
    decimals. *)
Definition ms (x : nat) : string :=
  digit (x / 1000)%nat ++ "."
  ++ digit ((x / 100) mod 10)%nat
  ++ digit ((x / 10) mod 10)%nat
  ++ digit (x mod 10)%nat.

Definition mined (fails : string -> string -> bool) (miner : string)
  : result (string * nat * nat) :=
  if fails miner "" then Raise (LibraryError (miner ++ " failed"))
  else Ok (miner, 1, 0).

Definition metric (fails : string -> string -> bool) (f : string) (x : nat)
    (net : string) : result nat :=
  if fails f net then Raise (LibraryError (f ++ " failed")) else Ok x.

Definition lib (fails : string -> string -> bool) : PM4Py := {|
  EventLog := list (list string);
  PetriNet := string;
  Marking := nat;
  ProcessTree := string;
  Gviz := string;
  float := nat;
  fsub := Nat.sub;
  format_3f := ms;
  str_float := ms;
  read_xes p :=
    if fails "read_xes" p then Raise (LibraryError "no such log")
    else Ok [["a"; "b"]; ["a"; "c"]];
  alpha_miner_apply _ := mined fails "alpha";
  inductive_miner_apply _ :=
    if fails "inductive" "" then Raise (LibraryError "inductive failed")
    else Ok "tree";
  convert_to_petri_net _ := mined fails "inductive_net";
  heuristics_miner_apply _ := mined fails "heuristics";
  ilp_miner_apply _ := mined fails "ilp";
  fitness_alignments _ net _ _ :=
    match metric fails "fitness_alignments" 990 net with
    | Ok x => Ok [("percFitTraces", 1000); ("log_fitness", x)]
    | Raise e => Raise e
    end;
  fitness_token_based_replay _ net _ _ :=
    match metric fails "fitness_token_based_replay" 950 net with
    | Ok x => Ok [("log_fitness", x)]
    | Raise e => Raise e
    end;
  precision_alignments _ net _ _ := metric fails "precision_alignments" 800 net;
  precision_token_based_replay _ net _ _ :=
    metric fails "precision_token_based_replay" 750 net;
  generalization_tbr _ net _ _ := metric fails "generalization_tbr" 600 net;
  pn_visualizer_apply net _ _ :=
    if fails "pn_visualizer" net then Raise (LibraryError "graphviz failed")
    else Ok ("picture of " ++ net);
|}.

(** A folder listed out of order, with a text file and a subfolder whose
    name ends in [.xes]. *)
Definition listing : list DirEntry :=
  [ {| name := "log2.xes"; path := "in/log2.xes"; is_file := true |};
    {| name := "notes.txt"; path := "in/notes.txt"; is_file := true |};
    {| name := "old.xes"; path := "in/old.xes"; is_file := false |};
    {| name := "log1.xes"; path := "in/log1.xes"; is_file := true |} ].

Definition clock (n : nat) : nat := 250 * n.

Definition os (fails : string -> string -> bool) : @OS (lib fails) :=
  @Build_OS (lib fails)
    (fun p => if String.eqb p "in/" then Ok listing
              else Raise (FileNotFoundError p))
    clock.

Definition never : string -> string -> bool := fun _ _ => false.

Definition only (f net : string) : string -> string -> bool :=
  fun f' net' => String.eqb f f' && String.eqb net net'.

Definition empty_world (fails : string -> string -> bool)
  : @World (lib fails) :=
  {| fs := ∅; ticks := 0; history := [] |}.


Definition one_miner : string -> string -> bool := only "heuristics" "".

Definition one_picture : string -> string -> bool :=
  only "pn_visualizer" "heuristics".

Definition event_log : list (list string) := [["a"; "b"]; ["a"; "c"]].

(** What a computation returned, or [d] when it raised. *)
Definition returned {A W} (x : result A * W) (d : A) : A :=
  match x.1 with Ok a => a | Raise _ => d end.

(** One log processed, and the whole folder processed, from nothing. *)
Abbreviation one_log fails :=
  (@process_event_log (lib fails) (os fails)
     "in/log1.xes" "output/log1.xes" (empty_world fails)).

Abbreviation whole_run fails :=
  (@main (lib fails) (os fails) "in/" "output/" (empty_world fails)).

End Demo.


(** ** Inputs at the edges

    A library whose alignment fitness has no [log_fitness] entry, a folder
    without event logs, a world in which the output directory's path is
    taken by a file, and metrics dictionaries that do not fit the header. *)

Module Edge.

Definition lib_without_log_fitness : PM4Py := {|
  EventLog := list (list string);
  PetriNet := string;
  Marking := nat;
  ProcessTree := string;
  Gviz := string;
  float := nat;
  fsub := Nat.sub;
  format_3f := Demo.ms;
  str_float := Demo.ms;
  read_xes _ := Ok Demo.event_log;
  alpha_miner_apply _ := Ok ("alpha", 1, 0);
  inductive_miner_apply _ := Ok "tree";
  convert_to_petri_net _ := Ok ("inductive_net", 1, 0);
  heuristics_miner_apply _ := Ok ("heuristics", 1, 0);
  ilp_miner_apply _ := Ok ("ilp", 1, 0);
  fitness_alignments _ _ _ _ := Ok [("percFitTraces", 1000)];
  fitness_token_based_replay _ _ _ _ := Ok [("log_fitness", 950)];
  precision_alignments _ _ _ _ := Ok 800;
  precision_token_based_replay _ _ _ _ := Ok 750;
  generalization_tbr _ _ _ _ := Ok 600;
  pn_visualizer_apply net _ _ := Ok ("picture of " ++ net);
|}.

Definition without_logs : list DirEntry :=
  [ {| name := "notes.txt"; path := "in/notes.txt"; is_file := true |};
    {| name := "old.xes"; path := "in/old.xes"; is_file := false |} ].

Definition os_without_logs : @OS (Demo.lib Demo.never) :=
  @Build_OS (Demo.lib Demo.never) (fun _ => Ok without_logs) Demo.clock.

(** The path [out] is a text file. *)
Definition taken : @World (Demo.lib Demo.never) :=
  {| fs := {[ "out" := File (Lines ["not a directory"]) ]};
     ticks := 0; history := [] |}.

(** Keys out of the header's order, one of them missing. *)
Definition shuffled : dict (@value (Demo.lib Demo.never)) :=
  [ ("generalization", VFloat (600 : @float (Demo.lib Demo.never)));
    ("algorithm", VStr "alpha");
    ("fitness_alignments", VNone) ].


(** The log that cannot be read. *)
Definition unreadable : string -> string -> bool :=
  Demo.only "read_xes" "in/log1.xes".

Definition nothing : @World lib_without_log_fitness :=
  {| fs := ∅; ticks := 0; history := [] |}.

Abbreviation drawn :=
  (@visualize_model (Demo.lib Demo.never) "alpha" 1 0 "alpha" "out"
     (Demo.empty_world Demo.never)).

Abbreviation exported :=
  (@export_pnml (Demo.lib Demo.never) "alpha" 1 0 "alpha" "out"
     (Demo.empty_world Demo.never)).

Abbreviation saved :=
  (@save_conformance_to_csv (Demo.lib Demo.never) [shuffled] "out"
     (Demo.empty_world Demo.never)).

Abbreviation discovered :=
  (@discover_models (Demo.lib Demo.never) (Demo.os Demo.never)
     Demo.event_log "out" (Demo.empty_world Demo.never)).

End Edge.
(** * Properties *)

(** ** Strings, paths and sorting *)

Module PyFacts.

Lemma append_cons (a : Ascii.ascii) (s t : string) :
  String a s ++ t = String a (s ++ t).
Proof. reflexivity. Qed.

Lemma append_assoc (s t u : string) : (s ++ t) ++ u = s ++ (t ++ u).
Proof.
  induction s as [|a s IH]; [reflexivity|].
  rewrite !append_cons. by rewrite IH.
Qed.

Lemma length_append (s t : string) :
  String.length (s ++ t) = String.length s + String.length t.
Proof.
  induction s as [|a s IH]; [reflexivity|].
  rewrite append_cons. cbn. by rewrite IH.
Qed.

(** [endswith] holds exactly of the strings that are something followed
    by the suffix. *)
Lemma endswith_spec (s suffix : string) :
  endswith s suffix = true <-> exists p, s = p ++ suffix.
Proof.
  induction s as [|a s IH]; cbn [endswith].
  - rewrite orb_false_r, String.eqb_eq. split.
    + intros <-. by exists "".
    + intros [[|b p] Hp]; [done|]. by rewrite append_cons in Hp.
  - rewrite orb_true_iff, String.eqb_eq, IH. split.
    + intros [<- | [p ->]]; [by exists ""|].
      exists (String a p). by rewrite append_cons.
    + intros [[|b p] Hp]; [by left|].
      rewrite append_cons in Hp. injection Hp as -> ->. right. by exists p.
Qed.

Lemma endswith_append (s t suffix : string) :
  endswith t suffix = true -> endswith (s ++ t) suffix = true.
Proof.
  rewrite !endswith_spec. intros [p ->]. exists (s ++ p).
  by rewrite append_assoc.
Qed.

Lemma path_join_relative (a b : string) :
  startswith b "/" = false -> path_join a b = dir_prefix a ++ b.
Proof.
  intros Hb. unfold path_join, dir_prefix. rewrite Hb.
  destruct (_ || _); [done|]. by rewrite append_assoc.
Qed.

Lemma path_join_inj (a b b' : string) :
  startswith b "/" = false -> startswith b' "/" = false ->
  path_join a b = path_join a b' -> b = b'.
Proof.
  intros Hb Hb'. rewrite !path_join_relative by done.
  apply String.app_inj.
Qed.

Lemma path_join_ne_dir (a b : string) :
  startswith b "/" = false -> b <> "" -> path_join a b <> a.
Proof.
  intros Hb Hne Heq. rewrite path_join_relative in Heq by done.
  apply (f_equal String.length) in Heq.
  rewrite length_append in Heq.
  assert (String.length a <= String.length (dir_prefix a)).
  { unfold dir_prefix. destruct (_ || _); [done|].
    rewrite length_append. lia. }
  destruct b; [done|]. cbn in Heq. lia.
Qed.

Lemma path_join_endswith (a b suffix : string) :
  endswith b suffix = true -> endswith (path_join a b) suffix = true.
Proof.
  intros Hb. unfold path_join.
  destruct (startswith b "/"); [done|].
  destruct (_ || _); auto using endswith_append.
Qed.

Lemma lookup_map {A B} (f : A -> B) (l : list A) (i : nat) :
  map f l !! i = f <$> (l !! i).
Proof. apply (list_lookup_fmap f). Qed.


Lemma endswith_trans (s t u : string) :
  endswith s t = true -> endswith t u = true -> endswith s u = true.
Proof.
  rewrite !endswith_spec. intros [p ->] [q ->]. exists (p ++ q).
  by rewrite append_assoc.
Qed.

(** A string has one last character. *)
Lemma endswith_char_inj (s : string) (a b : Ascii.ascii) :
  endswith s (String a "") = true -> endswith s (String b "") = true ->
  a = b.
Proof.
  rewrite !endswith_spec. intros [p ->] [q Hq]. revert q Hq.
  induction p as [|c p IH]; intros [|d q] Hq.
  - by injection Hq.
  - rewrite append_cons in Hq. injection Hq as _ Hq. by destruct q.
  - rewrite append_cons in Hq. injection Hq as _ Hq. by destruct p.
  - rewrite !append_cons in Hq. injection Hq as _ Hq. eauto.
Qed.

(** Two paths that end in different characters are different. *)
Lemma differ_at_end (s t : string) (a b : Ascii.ascii) :
  endswith s (String a "") = true -> endswith t (String b "") = true ->
  a <> b -> s <> t.
Proof. intros Hs Ht Hab <-. eauto using endswith_char_inj. Qed.

Lemma path_join_ends (a b suffix : string) :
  endswith b suffix = true -> endswith (path_join a b) suffix = true.
Proof. apply path_join_endswith. Qed.

(** *** The sort *)

Section Sort.
Context {A : Type} (key : A -> string).

Lemma ltb_le (s t : string) : String.ltb s t = true -> String.le s t.
Proof.
  unfold String.ltb, String.le, String.leb.
  destruct (String.compare s t); cbn; intros; done.
Qed.

Lemma not_ltb_le (s t : string) : String.ltb s t = false -> String.le t s.
Proof.
  unfold String.ltb, String.le, String.leb.
  rewrite (String.compare_antisym t s).
  destruct (String.compare s t); cbn; intros; done.
Qed.

Lemma insert_by_perm (x : A) (l : list A) : insert_by key x l ≡ₚ x :: l.
Proof.
  induction l as [|y l IH]; cbn; [done|].
  destruct (String.ltb _ _); [|done].
  rewrite IH. apply Permutation_swap.
Qed.

Lemma sort_by_perm (l : list A) : sort_by key l ≡ₚ l.
Proof.
  induction l as [|x l IH]; cbn; [done|].
  fold (sort_by key l). by rewrite insert_by_perm, IH.
Qed.

Lemma insert_by_sorted (x : A) (l : list A) :
  StronglySorted (key_le key) l -> StronglySorted (key_le key) (insert_by key x l).
Proof.
  induction 1 as [|y l Hl IH Hy]; cbn.
  - repeat constructor.
  - destruct (String.ltb (key y) (key x)) eqn:Hlt.
    + constructor; [done|].
      rewrite insert_by_perm. constructor; [|done].
      by apply ltb_le.
    + apply not_ltb_le in Hlt.
      constructor; [by constructor|].
      constructor; [done|].
      eapply Forall_impl; [exact Hy|].
      intros z Hz. unfold key_le in *. by etrans.
Qed.

Lemma sort_by_sorted (l : list A) : StronglySorted (key_le key) (sort_by key l).
Proof.
  induction l as [|x l IH]; cbn; [constructor|].
  by apply insert_by_sorted.
Qed.

(** Stability: entries with equal keys keep their order.  Stated on the
    sublist of the entries with a given key. *)
Lemma insert_by_filter_key (k : string) (x : A) (l : list A) :
  StronglySorted (key_le key) l ->
  List.filter (fun y => String.eqb (key y) k) (insert_by key x l)
  = List.filter (fun y => String.eqb (key y) k) (x :: l).
Proof.
  induction 1 as [|y l Hl IH Hy]; [done|].
  cbn [insert_by]. destruct (String.ltb (key y) (key x)) eqn:Hlt; [|done].
  cbn [List.filter] in *. rewrite IH.
  destruct (String.eqb (key x) k) eqn:Hx; [|done].
  destruct (String.eqb (key y) k) eqn:Hyk; [|done].
  apply String.eqb_eq in Hx, Hyk. rewrite Hx, Hyk in Hlt.
  unfold String.ltb in Hlt.
  assert (String.compare k k = Eq) as Hkk.
  { destruct (String.compare k k) eqn:Hc; [done|..];
      pose proof (String.compare_antisym k k) as Has;
      rewrite Hc in Has; discriminate. }
  by rewrite Hkk in Hlt.
Qed.

Lemma sort_by_stable (k : string) (l : list A) :
  List.filter (fun y => String.eqb (key y) k) (sort_by key l)
  = List.filter (fun y => String.eqb (key y) k) l.
Proof.
  induction l as [|x l IH]; [done|].
  cbn [sort_by foldr]. fold (sort_by key l).
  rewrite insert_by_filter_key by apply sort_by_sorted.
  cbn [List.filter]. by rewrite IH.
Qed.
End Sort.

End PyFacts.

Import PyFacts.

(** ** What a computation may do to the world *)

Section Effects.

Context `{Platform : OS}.

#[local] Open Scope list_scope.

#[local] Instance effect_refl P T : Reflexive (effect P T).
Proof.
  intros w. split; [|done]. exists []. by rewrite app_nil_r.
Qed.

#[local] Instance effect_trans P T : Transitive (effect P T).
Proof.
  intros w1 w2 w3 ([t1 [H1 F1]] & K1 & G1) ([t2 [H2 F2]] & K2 & G2).
  split; [|split].
  - exists (t1 ++ t2). rewrite H2, H1, app_assoc. split; [done|].
    by apply Forall_app.
  - intros p Hp. by rewrite K2, K1.
  - by etrans.
Qed.


Section Closure.
Context (R : relation World) `{!Reflexive R, !Transitive R}.

Lemma respects_ret {A} (a : A) : respects R (ret a).
Proof. intros w r w' [= <- <-]. done. Qed.

Lemma respects_raise {A} (e : exn) : respects R (raise e : M A).
Proof. intros w r w' [= <- <-]. done. Qed.

Lemma respects_lift {A} (x : result A) : respects R (lift x).
Proof. intros w r w' [= <- <-]. done. Qed.

Lemma respects_bind {A B} (m : M A) (k : A -> M B) :
  respects R m -> (forall a, respects R (k a)) -> respects R (bind m k).
Proof.
  intros Hm Hk w r w'. unfold bind.
  destruct (m w) as [[a|e] w1] eqn:E.
  - intros Hr. etrans; [by eapply Hm|by eapply Hk].
  - intros [= <- <-]. by eapply Hm.
Qed.

Lemma respects_try_except {A} (m : M A) (h : exn -> M A) :
  respects R m -> (forall e, respects R (h e)) ->
  respects R (try_except m h).
Proof.
  intros Hm Hh w r w'. unfold try_except.
  destruct (m w) as [[a|e] w1] eqn:E.
  - intros [= <- <-]. by eapply Hm.
  - intros Hr. etrans; [by eapply Hm|by eapply Hh].
Qed.

Lemma respects_for_each {A S} (l : list A) (s : S) (body : S -> A -> M S) :
  (forall s x, x ∈ l -> respects R (body s x)) ->
  respects R (for_each l s body).
Proof.
  revert s. induction l as [|x l IH]; intros s Hbody; cbn.
  - apply respects_ret.
  - apply respects_bind.
    + apply Hbody. by left.
    + intros s'. apply IH. intros s'' y Hy. apply Hbody. by right.
Qed.
End Closure.

(** *** The primitive effects *)

Lemma record_effect P T (e : event) : P e -> respects (effect P T) (record e).
Proof.
  intros He w r w' [= <- <-]. split; [|done].
  exists [e]. split; [done|]. by constructor.
Qed.

Lemma time_effect P T : respects (effect P T) time.
Proof.
  intros w r w' [= <- <-]. split; [|done]. exists []. by rewrite app_nil_r.
Qed.

Lemma call_effect P T {A} (f : libfn) (x : result A) :
  P (EvCall f) -> respects (effect P T) (call f x).
Proof.
  intros. apply respects_bind; [apply _|by apply record_effect|].
  intros _. apply respects_lift, _.
Qed.

Lemma insert_kinds (p : string) (n : node) (w : World) :
  (forall n', fs w !! p = Some n' -> is_dir n' = is_dir n) ->
  kinds w ⊆ kinds (set_fs (<[p := n]> (fs w)) w).
Proof.
  intros Hn. unfold kinds. cbn. rewrite fmap_insert.
  apply map_subseteq_spec. intros q b Hq.
  destruct (decide (p = q)) as [<-|Hne].
  - rewrite lookup_insert_eq. rewrite lookup_fmap in Hq.
    destruct (fs w !! p) as [n'|] eqn:E; [|done].
    cbn in Hq. injection Hq as <-. f_equal. symmetry. by apply Hn.
  - by rewrite lookup_insert_ne.
Qed.

Lemma insert_effect P T (p : string) (n : node) (w : World) :
  T p ->
  (forall n', fs w !! p = Some n' -> is_dir n' = is_dir n) ->
  effect P T w (set_fs (<[p := n]> (fs w)) w).
Proof.
  intros Hp Hn. split; [|split].
  - exists []. by rewrite app_nil_r.
  - intros q Hq. cbn. rewrite lookup_insert_ne; [done|]. by intros ->.
  - by apply insert_kinds.
Qed.

Lemma makedirs_effect P T (p : string) (exist_ok : bool) :
  P (EvMakedirs p) -> T p -> respects (effect P T) (makedirs p exist_ok).
Proof.
  intros He Hp. apply respects_bind; [apply _|by apply record_effect|].
  intros _ w r w'. destruct (fs w !! p) as [[|c]|] eqn:E.
  - destruct exist_ok; intros [= <- <-]; done.
  - intros [= <- <-]. done.
  - intros [= <- <-]. apply insert_effect; [done|]. by rewrite E.
Qed.

Lemma open_w_effect P T (p : string) (c : content) :
  P (EvOpen p) -> T p -> respects (effect P T) (open_w p c).
Proof.
  intros He Hp. apply respects_bind; [apply _|by apply record_effect|].
  intros _ w r w'. destruct (fs w !! p) as [[|c']|] eqn:E.
  - intros [= <- <-]. done.
  - intros [= <- <-]. apply insert_effect; [done|].
    rewrite E. by intros n' [= <-].
  - intros [= <- <-]. apply insert_effect; [done|]. by rewrite E.
Qed.

Lemma f_write_effect P T (p line : string) :
  P (EvWrite p) -> T p -> respects (effect P T) (f_write p line).
Proof.
  intros He Hp. apply respects_bind; [apply _|by apply record_effect|].
  intros _ w r w'. destruct (fs w !! p) as [[|[]]|] eqn:E;
    intros [= <- <-]; try done.
  apply insert_effect; [done|]. rewrite E. by intros n' [= <-].
Qed.

Lemma csv_writerow_effect P T (p : string) (fields : list string) :
  P (EvWrite p) -> T p -> respects (effect P T) (csv_writerow p fields).
Proof.
  intros He Hp. apply respects_bind; [apply _|by apply record_effect|].
  intros _ w r w'. destruct (fs w !! p) as [[|[]]|] eqn:E;
    intros [= <- <-]; try done.
  apply insert_effect; [done|]. rewrite E. by intros n' [= <-].
Qed.

End Effects.

#[global] Existing Instance effect_refl.
#[global] Existing Instance effect_trans.

(** ** Running the script step by step *)

Section Runs.

Context `{Platform : OS}.

#[local] Open Scope list_scope.

Lemma bind_ok_inv {A B} (m : M A) (k : A -> M B) w b w' :
  bind m k w = (Ok b, w') ->
  exists a w1, m w = (Ok a, w1) /\ k a w1 = (Ok b, w').
Proof.
  unfold bind. destruct (m w) as [[a|e] w1]; [|done].
  intros Hk. by exists a, w1.
Qed.

Lemma bind_run {A B} (m : M A) (k : A -> M B) w a w1 :
  m w = (Ok a, w1) -> bind m k w = k a w1.
Proof. unfold bind. by intros ->. Qed.

Lemma bind_run_raise {A B} (m : M A) (k : A -> M B) w e w1 :
  m w = (Raise e, w1) -> bind m k w = (Raise e, w1).
Proof. unfold bind. by intros ->. Qed.

Lemma makedirs_ok_inv (p : string) w w' :
  makedirs p true w = (Ok tt, w') ->
  (forall c, fs w !! p <> Some (File c))
  /\ w' = {| fs := <[p := Dir]> (fs w); ticks := ticks w;
             history := history w ++ [EvMakedirs p] |}.
Proof.
  unfold makedirs, bind, record. cbn.
  destruct (fs w !! p) as [[|c]|] eqn:E; [| done |].
  - intros [= <-]. split; [done|]. by rewrite insert_id.
  - intros [= <-]. done.
Qed.

Lemma makedirs_run (p : string) w :
  (forall c, fs w !! p <> Some (File c)) ->
  makedirs p true w
  = (Ok tt, {| fs := <[p := Dir]> (fs w); ticks := ticks w;
               history := history w ++ [EvMakedirs p] |}).
Proof.
  intros Hp. unfold makedirs, bind, record. cbn.
  destruct (fs w !! p) as [[|c]|] eqn:E.
  - by rewrite insert_id.
  - by destruct (Hp c).
  - done.
Qed.

Lemma open_w_ok_inv (p : string) (c : content) w w' :
  open_w p c w = (Ok tt, w') ->
  fs w !! p <> Some Dir
  /\ w' = {| fs := <[p := File c]> (fs w); ticks := ticks w;
             history := history w ++ [EvOpen p] |}.
Proof.
  unfold open_w, bind, record. cbn.
  destruct (fs w !! p) as [[|c']|] eqn:E; [done|..]; by intros [= <-].
Qed.

Lemma open_w_run (p : string) (c : content) w :
  fs w !! p <> Some Dir ->
  open_w p c w
  = (Ok tt, {| fs := <[p := File c]> (fs w); ticks := ticks w;
               history := history w ++ [EvOpen p] |}).
Proof.
  intros Hp. unfold open_w, bind, record. cbn.
  by destruct (fs w !! p) as [[|c']|] eqn:E.
Qed.

Lemma f_write_run (p line : string) (ls : list string) w :
  fs w !! p = Some (File (Lines ls)) ->
  f_write p line w
  = (Ok tt, {| fs := <[p := File (Lines (ls ++ [line]))]> (fs w);
               ticks := ticks w; history := history w ++ [EvWrite p] |}).
Proof. intros Hp. unfold f_write, bind, record. cbn. by rewrite Hp. Qed.

Lemma csv_writerow_run (p : string) (fields : list string)
    (rs : list (list string)) w :
  fs w !! p = Some (File (Rows rs)) ->
  csv_writerow p fields w
  = (Ok tt, {| fs := <[p := File (Rows (rs ++ [fields]))]> (fs w);
               ticks := ticks w; history := history w ++ [EvWrite p] |}).
Proof. intros Hp. unfold csv_writerow, bind, record. cbn. by rewrite Hp. Qed.

(** *** [discover_models] *)

Lemma discover_models_ok (event_log : EventLog) (output_dir : string)
    w models w' :
  discover_models event_log output_dir w = (Ok models, w') ->
  discovery_calls event_log = Ok models
  /\ (forall c, fs w !! output_dir <> Some (File c))
  /\ <[output_dir := Dir]> (fs w) !! execution_times_file output_dir
     <> Some Dir
  /\ w' = {| fs := <[execution_times_file output_dir :=
                       File (Lines (timing_lines (ticks w)))]>
                     (<[output_dir := Dir]> (fs w));
             ticks := 8 + ticks w;
             history := history w ++ discovery_events output_dir |}.
Proof.
  unfold discover_models, discovery_calls.
  cbn -[makedirs open_w f_write].
  destruct (alpha_miner_apply event_log) as [alpha|]; [|done].
  destruct (inductive_miner_apply event_log) as [tree|]; [|done].
  destruct (convert_to_petri_net tree) as [inductive|]; [|done].
  destruct (heuristics_miner_apply event_log) as [heuristics|]; [|done].
  destruct (ilp_miner_apply event_log) as [ilp|]; [|done].
  intros Hrun.
  apply bind_ok_inv in Hrun as ([] & w1 & Hmk & Hrun).
  apply makedirs_ok_inv in Hmk as [Hod ->]. cbn in Hod.
  apply bind_ok_inv in Hrun as ([] & w2 & Hop & Hrun).
  apply open_w_ok_inv in Hop as [Hf ->]. cbn in Hf.
  unfold bind in Hrun.
  repeat (erewrite f_write_run in Hrun by (cbn; apply lookup_insert_eq);
          cbn -[f_write] in Hrun).
  rewrite !insert_insert_eq in Hrun.
  injection Hrun as <- <-. repeat split; [done..|].
  by rewrite <- !app_assoc.
Qed.


(** A failing discovery call ends [discover_models] before it touches
    the file system. *)
Lemma discover_models_raises (event_log : EventLog) (output_dir : string)
    w e :
  discovery_calls event_log = Raise e ->
  exists w',
    discover_models event_log output_dir w = (Raise e, w')
    /\ fs w' = fs w
    /\ exists t, history w' = history w ++ t
                 /\ Forall (fun ev => exists f, ev = EvCall f) t.
Proof.
  unfold discover_models, discovery_calls.
  cbn -[makedirs open_w f_write].
  destruct (alpha_miner_apply event_log) as [alpha|].
  2:{ intros [= <-]. eexists. repeat split. eexists. split; [done|].
      repeat constructor; by eexists. }
  destruct (inductive_miner_apply event_log) as [tree|].
  2:{ intros [= <-]. eexists. repeat split. eexists.
      rewrite <- !app_assoc. split; [done|].
      repeat constructor; by eexists. }
  destruct (convert_to_petri_net tree) as [inductive|].
  2:{ intros [= <-]. eexists. repeat split. eexists.
      rewrite <- !app_assoc. split; [done|].
      repeat constructor; by eexists. }
  destruct (heuristics_miner_apply event_log) as [heuristics|].
  2:{ intros [= <-]. eexists. repeat split. eexists.
      rewrite <- !app_assoc. split; [done|].
      repeat constructor; by eexists. }
  destruct (ilp_miner_apply event_log) as [ilp|]; [done|].
  intros [= <-]. eexists. repeat split. eexists.
  rewrite <- !app_assoc. split; [done|].
  repeat constructor; by eexists.
Qed.

(** *** [calc_conformance] *)

(** [calc_conformance] always returns: the dictionary of the recorded
    outcomes, after five library calls and nothing else. *)
Lemma calc_conformance_run (event_log : EventLog) (model : PetriNet)
    (initial_marking final_marking : Marking) (algorithm_name : string) w :
  calc_conformance event_log model initial_marking final_marking
    algorithm_name w
  = (Ok (metrics_of algorithm_name event_log model
           initial_marking final_marking),
     add_history conformance_calls w).
Proof.
  unfold calc_conformance, metrics_of, metric_computations, log_fitness,
    add_history, conformance_calls.
  unfold try_except, bind, call, record, lift, ret. cbn.
  destruct (fitness_alignments _ _ _ _) as [d1|]; cbn;
    [destruct (subscript d1 _); cbn|];
  (destruct (fitness_token_based_replay _ _ _ _) as [d2|]; cbn;
    [destruct (subscript d2 _); cbn|]);
  destruct (precision_alignments _ _ _ _); cbn;
  destruct (precision_token_based_replay _ _ _ _); cbn;
  destruct (generalization_tbr _ _ _ _); cbn;
  by rewrite <- !app_assoc.
Qed.

(** *** [visualize_model] and [export_pnml] *)

Lemma visualize_model_ok (model : PetriNet) (im fm : Marking)
    (algorithm_name output_dir : string) w w' :
  visualize_model model im fm algorithm_name output_dir w = (Ok tt, w') ->
  exists gviz,
    pn_visualizer_apply model im fm = Ok gviz
    /\ (forall c, fs w !! output_dir <> Some (File c))
    /\ <[output_dir := Dir]> (fs w) !! png_file output_dir algorithm_name
       <> Some Dir
    /\ w' = {| fs := <[png_file output_dir algorithm_name :=
                         File (Png gviz)]>
                       (<[output_dir := Dir]> (fs w));
               ticks := ticks w;
               history :=
                 history w
                 ++ [ EvMakedirs output_dir; EvCall VisualizerApply;
                      EvCall VisualizerSave;
                      EvOpen (png_file output_dir algorithm_name) ] |}.
Proof.
  unfold visualize_model, pn_visualizer_save. intros Hrun.
  apply bind_ok_inv in Hrun as ([] & w1 & Hmk & Hrun).
  apply makedirs_ok_inv in Hmk as [Hod ->].
  unfold call, record, lift, bind in Hrun. cbn -[open_w] in Hrun.
  destruct (pn_visualizer_apply model im fm) as [gviz|]; [|done].
  apply open_w_ok_inv in Hrun as [Hf ->]. cbn in Hf.
  exists gviz. repeat split; [done..|]. cbn. by rewrite <- !app_assoc.
Qed.


Lemma export_pnml_ok (net : PetriNet) (im fm : Marking)
    (algorithm_name output_dir : string) w output_file w' :
  export_pnml net im fm algorithm_name output_dir w = (Ok output_file, w') ->
  output_file = pnml_file output_dir algorithm_name
  /\ (forall c, fs w !! output_dir <> Some (File c))
  /\ <[output_dir := Dir]> (fs w) !! pnml_file output_dir algorithm_name
     <> Some Dir
  /\ w' = {| fs := <[pnml_file output_dir algorithm_name :=
                       File (Pnml net im fm)]>
                     (<[output_dir := Dir]> (fs w));
             ticks := ticks w;
             history :=
               history w
               ++ [ EvMakedirs output_dir; EvCall WritePnml;
                    EvOpen (pnml_file output_dir algorithm_name) ] |}.
Proof.
  unfold export_pnml, write_pnml. intros Hrun.
  apply bind_ok_inv in Hrun as ([] & w1 & Hmk & Hrun).
  apply makedirs_ok_inv in Hmk as [Hod ->].
  apply bind_ok_inv in Hrun as ([] & w2 & Hwr & Hrun).
  injection Hrun as <- <-.
  unfold call, record, lift, bind in Hwr. cbn -[open_w] in Hwr.
  apply open_w_ok_inv in Hwr as [Hf ->]. cbn in Hf.
  repeat split; [done..|]. cbn. by rewrite <- !app_assoc.
Qed.


(** *** [save_conformance_to_csv] *)

Lemma writerows_run (p : string) (ml : list (dict value))
    (rows : list (list string)) :
  Forall2 written_as ml rows ->
  forall rs w,
    fs w !! p = Some (File (Rows rs)) ->
    for_each ml tt (fun _ metrics => writerow p fieldnames metrics) w
    = (Ok tt,
       {| fs := <[p := File (Rows (rs ++ rows))]> (fs w);
          ticks := ticks w;
          history := history w ++ replicate (length ml) (EvWrite p) |}).
Proof.
  induction 1 as [|m row ml rows (vs & Hvs & ->) _ IH]; intros rs w Hp.
  - cbn. unfold ret. destruct w as [m t h]. cbn in *.
    by rewrite !app_nil_r, insert_id.
  - cbn [for_each length replicate]. unfold bind at 1, writerow at 1.
    unfold bind at 1, lift. rewrite Hvs.
    rewrite (csv_writerow_run _ _ rs) by done.
    rewrite (IH (rs ++ [map csv_field vs])) by apply lookup_insert_eq.
    cbn. by rewrite insert_insert_eq, <- !app_assoc.
Qed.

Lemma writerows_ok (p : string) (ml : list (dict value)) :
  forall rs w w',
    fs w !! p = Some (File (Rows rs)) ->
    for_each ml tt (fun _ metrics => writerow p fieldnames metrics) w
    = (Ok tt, w') ->
    exists rows, Forall2 written_as ml rows.
Proof.
  induction ml as [|m ml IH]; intros rs w w' Hp Hrun.
  - by exists [].
  - cbn [for_each] in Hrun.
    apply bind_ok_inv in Hrun as ([] & w1 & Hrow & Hrun).
    unfold writerow, bind, lift in Hrow.
    destruct (dict_to_list fieldnames m) as [vs|] eqn:Hvs; [|done].
    rewrite (csv_writerow_run _ _ rs) in Hrow by done.
    injection Hrow as <-.
    eapply IH in Hrun as [rows Hrows]; [|apply lookup_insert_eq].
    exists (map csv_field vs :: rows). constructor; [|done]. by exists vs.
Qed.

Lemma save_conformance_to_csv_run (metrics_list : list (dict value))
    (output_dir : string) (rows : list (list string)) w :
  Forall2 written_as metrics_list rows ->
  (forall c, fs w !! output_dir <> Some (File c)) ->
  <[output_dir := Dir]> (fs w) !! conformance_file output_dir <> Some Dir ->
  save_conformance_to_csv metrics_list output_dir w
  = (Ok tt,
     {| fs := <[conformance_file output_dir :=
                  File (Rows (fieldnames :: rows))]>
                (<[output_dir := Dir]> (fs w));
        ticks := ticks w;
        history :=
          history w
          ++ EvMakedirs output_dir :: EvOpen (conformance_file output_dir)
             :: replicate (S (length metrics_list))
                  (EvWrite (conformance_file output_dir)) |}).
Proof.
  intros Hrows Hod Hf. unfold save_conformance_to_csv, writeheader.
  rewrite (bind_run _ _ _ _ _ (makedirs_run _ _ Hod)).
  erewrite (bind_run (open_w _ _)) by (apply open_w_run; exact Hf).
  erewrite bind_run;
    [|by apply (csv_writerow_run _ _ []), lookup_insert_eq].
  erewrite (writerows_run _ _ _ Hrows) by apply lookup_insert_eq.
  cbn. by rewrite !insert_insert_eq, <- !app_assoc.
Qed.

Lemma save_conformance_to_csv_ok (metrics_list : list (dict value))
    (output_dir : string) w w' :
  save_conformance_to_csv metrics_list output_dir w = (Ok tt, w') ->
  exists rows,
    Forall2 written_as metrics_list rows
    /\ (forall c, fs w !! output_dir <> Some (File c))
    /\ <[output_dir := Dir]> (fs w) !! conformance_file output_dir
       <> Some Dir
    /\ w' = {| fs := <[conformance_file output_dir :=
                         File (Rows (fieldnames :: rows))]>
                       (<[output_dir := Dir]> (fs w));
               ticks := ticks w;
               history :=
                 history w
                 ++ EvMakedirs output_dir
                    :: EvOpen (conformance_file output_dir)
                    :: replicate (S (length metrics_list))
                         (EvWrite (conformance_file output_dir)) |}.
Proof.
  intros Hrun. pose proof Hrun as Hrun'.
  unfold save_conformance_to_csv, writeheader in Hrun.
  apply bind_ok_inv in Hrun as ([] & w1 & Hmk & Hrun).
  apply makedirs_ok_inv in Hmk as [Hod ->].
  apply bind_ok_inv in Hrun as ([] & w2 & Hop & Hrun).
  apply open_w_ok_inv in Hop as [Hf ->]. cbn in Hf.
  erewrite bind_run in Hrun;
    [|by apply (csv_writerow_run _ _ []), lookup_insert_eq].
  eapply writerows_ok in Hrun as [rows Hrows]; [|apply lookup_insert_eq].
  exists rows. repeat split; [done..|].
  rewrite (save_conformance_to_csv_run _ _ _ _ Hrows Hod Hf) in Hrun'.
  by injection Hrun' as <-.
Qed.

End Runs.

(** ** What each function of the script may do to the world *)

(** Splits a goal [respects (effect P T) m] along the structure of [m];
    what remains are the conditions on [P] and [T]. *)
Ltac effects_with known :=
  repeat first
    [ known
    | apply time_effect
    | apply call_effect
    | apply record_effect
    | apply makedirs_effect
    | apply open_w_effect
    | apply f_write_effect
    | apply csv_writerow_effect
    | apply respects_ret; apply _
    | apply respects_lift; apply _
    | apply respects_for_each; [apply _|apply _|intros ? ? ?]
    | apply respects_try_except; [apply _| |intros ?]
    | apply respects_bind; [apply _| |intros ?]
    | match goal with
      | |- respects _ (match ?x with (_, _) => _ end) => destruct x
      | H : forall e, inner e -> ?P e |- ?P _ => by apply H
      | |- forall e : event, inner e -> _ =>
          solve [intros ? ?; first [assumption|exact I]]
      | |- inner _ => exact I
      | |- any_event _ => exact I
      | |- any_path _ => exact I
      end
    | assumption ].

Ltac effects := effects_with fail.

Section Frames.

Context `{Platform : OS}.

#[local] Open Scope list_scope.

Context (P : event -> Prop) (T : string -> Prop).
Context (HP : forall e, inner e -> P e).

Lemma load_event_log_effect (file_path : string) :
  respects (effect P T) (load_event_log file_path).
Proof. unfold load_event_log. effects. Qed.

Lemma discover_models_effect (event_log : EventLog) (output_dir : string) :
  T output_dir -> T (execution_times_file output_dir) ->
  respects (effect P T) (discover_models event_log output_dir).
Proof. intros Hod Hf. unfold discover_models. effects. Qed.

Lemma calc_conformance_effect (event_log : EventLog) (model : PetriNet)
    (im fm : Marking) (algorithm_name : string) :
  respects (effect P T) (calc_conformance event_log model im fm algorithm_name).
Proof. unfold calc_conformance. effects. Qed.

Lemma visualize_model_effect (model : PetriNet) (im fm : Marking)
    (algorithm_name output_dir : string) :
  T output_dir -> T (png_file output_dir algorithm_name) ->
  respects (effect P T)
    (visualize_model model im fm algorithm_name output_dir).
Proof.
  intros Hod Hf. unfold visualize_model, pn_visualizer_save. effects.
Qed.

Lemma export_pnml_effect (net : PetriNet) (im fm : Marking)
    (algorithm_name output_dir : string) :
  T output_dir -> T (pnml_file output_dir algorithm_name) ->
  respects (effect P T) (export_pnml net im fm algorithm_name output_dir).
Proof. intros Hod Hf. unfold export_pnml, write_pnml. effects. Qed.

Lemma save_conformance_to_csv_effect (metrics_list : list (dict value))
    (output_dir : string) :
  T output_dir -> T (conformance_file output_dir) ->
  respects (effect P T) (save_conformance_to_csv metrics_list output_dir).
Proof.
  intros Hod Hf.
  unfold save_conformance_to_csv, writeheader, writerow. effects.
Qed.

Lemma process_model_effect (event_log : EventLog) (output_dir : string)
    (acc : list (dict value) * dict string)
    (item : string * net_and_markings) :
  T output_dir ->
  T (png_file output_dir item.1) -> T (pnml_file output_dir item.1) ->
  respects (effect P T) (process_model event_log output_dir acc item).
Proof.
  intros Hod Hpng Hpnml. destruct acc as [cm pf], item as [alg [[m im] fm]].
  unfold process_model.
  effects_with ltac:(first
    [ apply calc_conformance_effect
    | apply visualize_model_effect
    | apply export_pnml_effect ]).
Qed.


End Frames.

(** ** The output paths of one log *)

Lemma execution_times_file_ends (output_dir : string) :
  endswith (execution_times_file output_dir) "t" = true.
Proof. by apply path_join_ends. Qed.

Lemma conformance_file_ends (output_dir : string) :
  endswith (conformance_file output_dir) "v" = true.
Proof. by apply path_join_ends. Qed.

Lemma png_file_ends (output_dir algorithm_name : string) :
  endswith (png_file output_dir algorithm_name) "g" = true.
Proof. by apply path_join_ends, endswith_append. Qed.

Lemma pnml_file_ends (output_dir algorithm_name : string) :
  endswith (pnml_file output_dir algorithm_name) "l" = true.
Proof. by apply path_join_ends, endswith_append. Qed.

Lemma execution_times_file_ne_dir (output_dir : string) :
  execution_times_file output_dir <> output_dir.
Proof. by apply path_join_ne_dir. Qed.

Lemma conformance_file_ne_dir (output_dir : string) :
  conformance_file output_dir <> output_dir.
Proof. by apply path_join_ne_dir. Qed.

(** The per-model steps and the CSV leave the execution-times file
    alone, and the per-model steps leave the CSV alone. *)
Lemma loop_paths_apart (output_dir : string) :
  apart_from [execution_times_file output_dir; conformance_file output_dir]
    output_dir
  /\ forall algorithm_name,
       apart_from
         [execution_times_file output_dir; conformance_file output_dir]
         (png_file output_dir algorithm_name)
       /\ apart_from
            [execution_times_file output_dir; conformance_file output_dir]
            (pnml_file output_dir algorithm_name).
Proof.
  unfold apart_from. split; [|intros alg; split];
    rewrite !not_elem_of_cons; (split; [|split; [|apply not_elem_of_nil]]).
  - intros Heq. by apply (execution_times_file_ne_dir output_dir).
  - intros Heq. by apply (conformance_file_ne_dir output_dir).
  - eapply differ_at_end;
      [apply png_file_ends|apply execution_times_file_ends|done].
  - eapply differ_at_end;
      [apply png_file_ends|apply conformance_file_ends|done].
  - eapply differ_at_end;
      [apply pnml_file_ends|apply execution_times_file_ends|done].
  - eapply differ_at_end;
      [apply pnml_file_ends|apply conformance_file_ends|done].
Qed.

Lemma csv_path_apart (output_dir : string) :
  apart_from [execution_times_file output_dir] output_dir
  /\ apart_from [execution_times_file output_dir]
       (conformance_file output_dir).
Proof.
  unfold apart_from. rewrite !not_elem_of_cons. repeat split.
  - intros Heq. by apply (execution_times_file_ne_dir output_dir).
  - apply not_elem_of_nil.
  - eapply differ_at_end;
      [apply conformance_file_ends|apply execution_times_file_ends|done].
  - apply not_elem_of_nil.
Qed.

(** ** The stages of [process_event_log] *)

Section Process.

Context `{Platform : OS}.

#[local] Open Scope list_scope.

(** Once the log is read, [process_event_log] is discovery, the loop over
    the models and the CSV, from the world [entered]. *)
Lemma process_event_log_unfold (file_path output_dir : string)
    (event_log : EventLog) w :
  read_xes file_path = Ok event_log ->
  process_event_log file_path output_dir w
  = (models <- discover_models event_log output_dir ;;
     acc <- for_each models ([], []) (process_model event_log output_dir) ;;
     save_conformance_to_csv acc.1 output_dir ;;
     ret (models, acc.2))
      (entered file_path output_dir w).
Proof.
  intros Hlog. unfold process_event_log, load_event_log, call.
  unfold bind at 1 2 3 4, record, lift. cbn. rewrite Hlog. cbn.
  unfold entered, add_history. rewrite <- app_assoc. cbn.
  unfold bind. destruct (discover_models _ _ _) as [[models|] w1]; [|done].
  by destruct (for_each _ _ _ _) as [[[cm pf]|] w2].
Qed.

Lemma process_event_log_unread (file_path output_dir : string) (e : exn) w :
  read_xes file_path = Raise e ->
  process_event_log file_path output_dir w
  = (Raise e, entered file_path output_dir w).
Proof.
  intros Hlog. unfold process_event_log, load_event_log, call.
  unfold bind at 1 2 3 4, record, lift. cbn. rewrite Hlog. cbn.
  unfold entered, add_history. by rewrite <- app_assoc.
Qed.

Lemma process_event_log_ok (file_path output_dir : string) w r w' :
  process_event_log file_path output_dir w = (Ok r, w') ->
  exists event_log models w1 cm pf w2,
    read_xes file_path = Ok event_log
    /\ discover_models event_log output_dir (entered file_path output_dir w)
       = (Ok models, w1)
    /\ for_each models ([], []) (process_model event_log output_dir) w1
       = (Ok (cm, pf), w2)
    /\ save_conformance_to_csv cm output_dir w2 = (Ok tt, w')
    /\ r = (models, pf).
Proof.
  destruct (read_xes file_path) as [event_log|e] eqn:Hlog.
  2:{ by rewrite (process_event_log_unread _ _ e). }
  rewrite (process_event_log_unfold _ _ event_log) by done. intros Hrun.
  apply bind_ok_inv in Hrun as (models & w1 & Hdisc & Hrun).
  apply bind_ok_inv in Hrun as ([cm pf] & w2 & Hloop & Hrun).
  apply bind_ok_inv in Hrun as ([] & w3 & Hsave & Hrun).
  injection Hrun as <- <-. by exists event_log, models, w1, cm, pf, w2.
Qed.

(** The loop over the models collects one metrics dictionary per model,
    in the order of the models. *)
Lemma loop_collects_metrics (event_log : EventLog) (output_dir : string)
    (models : dict net_and_markings) :
  forall cm0 pf0 w cm pf w',
    for_each models (cm0, pf0) (process_model event_log output_dir) w
    = (Ok (cm, pf), w') ->
    cm = cm0 ++ metrics_list_of event_log models.
Proof.
  induction models as [|[alg [[m im] fm]] models IH];
    intros cm0 pf0 w cm pf w' Hrun.
  - injection Hrun as <- _ _. by rewrite app_nil_r.
  - cbn [for_each] in Hrun.
    apply bind_ok_inv in Hrun as ([cm1 pf1] & w1 & Hbody & Hrun).
    apply IH in Hrun as ->.
    unfold process_model in Hbody.
    rewrite (bind_run _ _ _ _ _ (calc_conformance_run _ _ _ _ _ _)) in Hbody.
    apply bind_ok_inv in Hbody as ([] & w2 & _ & Hbody).
    apply bind_ok_inv in Hbody as (f & w3 & _ & Hbody).
    injection Hbody as <- _ _. cbn. by rewrite <- app_assoc.
Qed.

(** What the csv writer makes of the metrics dictionary of a model. *)
Lemma written_as_metrics_of (event_log : EventLog)
    (item : string * net_and_markings) (fields : list string) :
  written_as
    (metrics_of item.1 event_log item.2.1.1 item.2.1.2 item.2.2) fields
  <-> fields = csv_record event_log item.
Proof.
  destruct item as [alg [[m im] fm]]. unfold written_as. cbn. split.
  - intros (row & [= <-] & ->). done.
  - intros ->. eexists. split; done.
Qed.

Lemma written_as_metrics_list (event_log : EventLog)
    (models : dict net_and_markings) (rows : list (list string)) :
  Forall2 written_as (metrics_list_of event_log models) rows
  <-> rows = map (csv_record event_log) models.
Proof.
  unfold metrics_list_of. revert rows.
  induction models as [|item models IH]; intros rows; cbn [map].
  - split; [by intros ->%Forall2_nil_inv_l|intros ->; constructor].
  - split.
    + intros (row & rows' & Hrow & Hrows & ->)%Forall2_cons_inv_l.
      apply written_as_metrics_of in Hrow as ->.
      by apply IH in Hrows as ->.
    + intros ->. constructor; [by apply written_as_metrics_of|by apply IH].
Qed.

End Process.

(** * The claims *)

Section Conformance.

Context `{Platform : OS}.

#[local] Open Scope list_scope.

Lemma discovery_calls_keys (event_log : EventLog)
    (models : dict net_and_markings) :
  discovery_calls event_log = Ok models ->
  keys models = ["alpha"; "inductive"; "heuristics"; "ilp"].
Proof.
  unfold discovery_calls.
  destruct (alpha_miner_apply event_log); [|done].
  destruct (inductive_miner_apply event_log) as [tree|]; [|done].
  destruct (convert_to_petri_net tree); [|done].
  destruct (heuristics_miner_apply event_log); [|done].
  destruct (ilp_miner_apply event_log); [|done].
  by intros [= <-].
Qed.

Lemma csv_record_first (event_log : EventLog)
    (models : dict net_and_markings) :
  map (hd "") (map (csv_record event_log) models) = keys models.
Proof.
  induction models as [|[alg [[m im] fm]] models IH]; [done|].
  cbn. f_equal. exact IH.
Qed.

Lemma csv_record_lookup (event_log : EventLog) (algorithm_name : string)
    (model : PetriNet) (im fm : Marking) (j : nat) :
  csv_record event_log (algorithm_name, (model, im, fm)) !! S j
  = (fun r => csv_field (recorded r))
    <$> (metric_computations event_log model im fm !! j).
Proof. apply (lookup_map (fun r => csv_field (recorded r))). Qed.

(** C9: [calc_conformance] returns on every input, and what it returns is
    a dictionary with exactly the six keys [algorithm],
    [fitness_alignments], [fitness_token_based], [precision_alignments],
    [precision_token_based], [generalization], in this order; under
    [algorithm] is the name it was given, and under each metric key the
    result of that metric's computation, or [None] when the computation
    raised.  The call leaves the files alone. *)
Theorem calc_conformance_returns_six_keys (event_log : EventLog)
    (model : PetriNet) (initial_marking final_marking : Marking)
    (algorithm_name : string) (w : World) :
  exists metrics w',
    calc_conformance event_log model initial_marking final_marking
      algorithm_name w = (Ok metrics, w')
    /\ keys metrics = fieldnames
    /\ dict_get metrics "algorithm" = Some (VStr algorithm_name)
    /\ Forall2
         (fun key r =>
            dict_get metrics key
            = Some (match r with Ok x => VFloat x | Raise _ => VNone end))
         metric_keys
         (metric_computations event_log model initial_marking final_marking)
    /\ fs w' = fs w.
Proof.
  rewrite calc_conformance_run. eexists _, _. split; [done|].
  repeat split. repeat constructor.
Qed.


(** The conformance CSV of a processed log: the header, then the record
    of each discovered model, in the order of discovery. *)
Lemma process_event_log_csv (file_path output_dir : string) w r w' :
  process_event_log file_path output_dir w = (Ok r, w') ->
  exists event_log models,
    read_xes file_path = Ok event_log
    /\ discovery_calls event_log = Ok models
    /\ r.1 = models
    /\ fs w' !! conformance_file output_dir
       = Some (File (Rows (fieldnames :: map (csv_record event_log) models))).
Proof.
  intros (event_log & models & w1 & cm & pf & w2
          & Hlog & Hdisc & Hloop & Hsave & ->)%process_event_log_ok.
  apply discover_models_ok in Hdisc as (Hcalls & _).
  apply loop_collects_metrics in Hloop as ->. cbn [app] in Hsave.
  apply save_conformance_to_csv_ok in Hsave as (rows & Hrows & _ & _ & ->).
  apply written_as_metrics_list in Hrows as ->.
  exists event_log, models. repeat split; [done..|].
  cbn. apply lookup_insert_eq.
Qed.

(** C2: when [process_event_log] returns, the conformance CSV holds the
    header record and then exactly four records, whose first fields are
    [alpha], [inductive], [heuristics], [ilp], in this order. *)
Theorem csv_has_one_row_per_algorithm (file_path output_dir : string)
    (w : World) r (w' : World) :
  process_event_log file_path output_dir w = (Ok r, w') ->
  exists rows,
    fs w' !! conformance_file output_dir
      = Some (File (Rows (fieldnames :: rows)))
    /\ length rows = 4
    /\ map (hd "") rows = ["alpha"; "inductive"; "heuristics"; "ilp"].
Proof.
  intros (event_log & models & _ & Hcalls & _ & Hcsv)%process_event_log_csv.
  apply discovery_calls_keys in Hcalls.
  exists (map (csv_record event_log) models). split; [done|].
  rewrite csv_record_first, Hcalls. split; [|done].
  rewrite length_map, <- (length_map fst). fold (keys models).
  by rewrite Hcalls.
Qed.

End Conformance.

Section Discovery.

Context `{Platform : OS}.

#[local] Open Scope list_scope.

Lemma any_event_inner (e : event) : inner e -> any_event e.
Proof. done. Qed.

(** The loop over the models touches neither the execution-times file
    nor the CSV. *)
Lemma loop_keeps (event_log : EventLog) (output_dir : string)
    (models : dict net_and_markings) acc w r w' :
  for_each models acc (process_model event_log output_dir) w = (r, w') ->
  fs w' !! execution_times_file output_dir
    = fs w !! execution_times_file output_dir
  /\ fs w' !! conformance_file output_dir
     = fs w !! conformance_file output_dir.
Proof.
  intros Hrun.
  destruct (loop_paths_apart output_dir) as [Hod Halg].
  assert (respects
            (effect any_event
               (apart_from [execution_times_file output_dir;
                            conformance_file output_dir]))
            (for_each models acc (process_model event_log output_dir)))
    as Heff.
  { apply respects_for_each; [apply _..|]. intros s x _.
    apply process_model_effect; [apply any_event_inner|done|apply Halg..]. }
  apply Heff in Hrun as (_ & Hkeep & _).
  split; apply Hkeep; unfold apart_from; intros Hp; apply Hp;
    rewrite !elem_of_cons; auto.
Qed.

(** Writing the CSV leaves the execution-times file alone. *)
Lemma save_keeps (metrics_list : list (dict value)) (output_dir : string)
    w r w' :
  save_conformance_to_csv metrics_list output_dir w = (r, w') ->
  fs w' !! execution_times_file output_dir
    = fs w !! execution_times_file output_dir.
Proof.
  intros Hrun. destruct (csv_path_apart output_dir) as [Hod Hcsv].
  apply (save_conformance_to_csv_effect any_event
           (apart_from [execution_times_file output_dir]) any_event_inner)
    in Hrun as (_ & Hkeep & _); [|done..].
  apply Hkeep. unfold apart_from. intros Hp. apply Hp. by left.
Qed.

(** The file system right after a successful discovery. *)
Lemma discovered_files (event_log : EventLog) (output_dir : string)
    w models w1 :
  discover_models event_log output_dir w = (Ok models, w1) ->
  fs w1 !! output_dir = Some Dir
  /\ fs w1 !! execution_times_file output_dir
     = Some (File (Lines (timing_lines (ticks w))))
  /\ fs w1 !! conformance_file output_dir
     = fs w !! conformance_file output_dir
  /\ history w1 = history w ++ discovery_events output_dir.
Proof.
  intros (_ & _ & _ & ->)%discover_models_ok. cbn.
  destruct (csv_path_apart output_dir) as [_ Hcsv].
  unfold apart_from in Hcsv. rewrite not_elem_of_cons in Hcsv.
  destruct Hcsv as [Hcsv _].
  repeat split.
  - rewrite lookup_insert_ne by apply execution_times_file_ne_dir.
    apply lookup_insert_eq.
  - apply lookup_insert_eq.
  - rewrite lookup_insert_ne by done.
    apply lookup_insert_ne. intros Heq.
    by apply (conformance_file_ne_dir output_dir).
Qed.

(** C6, as the script has it: when [process_event_log] returns, the
    execution-times file holds six lines: a title line and a line of
    [=] signs, then one line per algorithm, in the order alpha, inductive,
    heuristics, ilp, each made of the algorithm's name, a colon and a
    space, and the elapsed time of its discovery to three decimals. *)
Theorem execution_times_file_has_two_header_lines_and_four_pairs
    (file_path output_dir : string) (w : World) r (w' : World) :
  process_event_log file_path output_dir w = (Ok r, w') ->
  exists pairs,
    fs w' !! execution_times_file output_dir
      = Some (File (Lines ("Algorithm Execution Times (seconds)"
                           :: "================================"
                           :: pairs)))
    /\ pairs
       = map (fun '(algorithm, i) =>
                (algorithm ++ ": " ++ format_3f (elapsed (i + ticks w)))%string)
           [("alpha", 0); ("inductive", 2); ("heuristics", 4); ("ilp", 6)]
    /\ length pairs = 4.
Proof.
  intros (event_log & models & w1 & cm & pf & w2
          & Hlog & Hdisc & Hloop & Hsave & ->)%process_event_log_ok.
  apply discovered_files in Hdisc as (_ & Hfile & _).
  apply loop_keeps in Hloop as [Hloop _]. apply save_keeps in Hsave.
  eexists. split; [|done].
  by rewrite Hsave, Hloop, Hfile.
Qed.

(** C10: discovery leaves the output directory and the complete
    execution-times file behind before any conformance, visualization or
    export call has been made; and when a per-model step raises afterwards,
    [process_event_log] raises with the execution-times file still complete
    and the path of the CSV as it was when the log was entered. *)
Theorem execution_times_written_before_later_steps
    (file_path output_dir : string) (event_log : EventLog)
    (models : dict net_and_markings) (w w1 : World) :
  read_xes file_path = Ok event_log ->
  discover_models event_log output_dir (entered file_path output_dir w)
    = (Ok models, w1) ->
  (fs w1 !! output_dir = Some Dir
   /\ fs w1 !! execution_times_file output_dir
      = Some (File (Lines (timing_lines (ticks w)))))
  /\ (exists t, history w1 = history w ++ t
                /\ Forall (fun ev => after_discovery ev = false) t)
  /\ forall e w2,
       for_each models ([], []) (process_model event_log output_dir) w1
         = (Raise e, w2) ->
       process_event_log file_path output_dir w = (Raise e, w2)
       /\ fs w2 !! execution_times_file output_dir
          = Some (File (Lines (timing_lines (ticks w))))
       /\ fs w2 !! conformance_file output_dir
          = fs w !! conformance_file output_dir.
Proof.
  intros Hlog Hdisc.
  pose proof (discovered_files _ _ _ _ _ Hdisc) as (Hdir & Hfile & Hcsv & Hh).
  cbn in Hfile, Hcsv, Hh. split; [done|]. split.
  - eexists. rewrite Hh, <- app_assoc. split; [done|].
    repeat constructor.
  - intros e w2 Hloop. split.
    + rewrite (process_event_log_unfold _ _ event_log) by done.
      rewrite (bind_run _ _ _ _ _ Hdisc).
      by rewrite (bind_run_raise _ _ _ _ _ Hloop).
    + apply loop_keeps in Hloop as [-> ->]. done.
Qed.

(** C5: when one of the discovery calls raises, [process_event_log]
    raises the same exception, the loop of [main] over the files ends with
    it, and the file system is as it was: no directory, execution-times
    file, CSV, picture or PNML file has been made for the log. *)
Theorem miner_failure_aborts_the_log (output_base_dir : string)
    (file_entry : DirEntry) (rest : list DirEntry) (results : results_dict)
    (event_log : EventLog) (e : exn) (w : World) :
  read_xes (path file_entry) = Ok event_log ->
  discovery_calls event_log = Raise e ->
  exists w',
    process_event_log (path file_entry)
      (path_join output_base_dir (name file_entry)) w = (Raise e, w')
    /\ for_each (file_entry :: rest) results (process_file output_base_dir) w
       = (Raise e, w')
    /\ fs w' = fs w.
Proof.
  intros Hlog Hcalls.
  set (output_dir := path_join output_base_dir (name file_entry)).
  destruct (discover_models_raises event_log output_dir
              (entered (path file_entry) output_dir w) e Hcalls)
    as (w' & Hdisc & Hfs & _).
  assert (process_event_log (path file_entry) output_dir w = (Raise e, w'))
    as Hrun.
  { rewrite (process_event_log_unfold _ _ event_log) by done.
    by rewrite (bind_run_raise _ _ _ _ _ Hdisc). }
  exists w'. split; [done|]. split; [|done].
  cbn [for_each]. apply bind_run_raise.
  unfold process_file. by apply bind_run_raise.
Qed.

End Discovery.

Section Main.

Context `{Platform : OS}.

#[local] Open Scope list_scope.

Lemma processed_app (h1 h2 : list event) :
  processed (h1 ++ h2) = processed h1 ++ processed h2.
Proof. apply flat_map_app. Qed.

Lemma processed_inner (t : list event) : Forall inner t -> processed t = [].
Proof.
  induction 1 as [|e t He _ IH]; [done|].
  unfold processed in *. cbn. rewrite IH. by destruct e.
Qed.

Lemma processed_entered (file_path output_dir : string) (t : list event) :
  Forall inner t ->
  processed (EvProcess file_path output_dir :: t) = [(file_path, output_dir)].
Proof.
  intros Ht. change (processed (EvProcess file_path output_dir :: t))
    with ((file_path, output_dir) :: processed t).
  by rewrite processed_inner.
Qed.

Lemma listings_app (h1 h2 : list event) :
  listings (h1 ++ h2) = listings h1 + listings h2.
Proof. unfold listings. by rewrite List.filter_app, length_app. Qed.

Lemma listings_inner (t : list event) : Forall inner t -> listings t = 0.
Proof.
  induction 1 as [|e t He _ IH]; [done|].
  unfold listings in *. cbn. by destruct e as [| [] | | |].
Qed.

Lemma listings_entered (file_path output_dir : string) (t : list event) :
  Forall inner t -> listings (EvProcess file_path output_dir :: t) = 0.
Proof.
  intros Ht. change (listings (EvProcess file_path output_dir :: t))
    with (listings t).
  by apply listings_inner.
Qed.

Lemma bind_record {A} (e : event) (k : unit -> M A) w :
  bind (record e) k w = k tt (add_history [e] w).
Proof. done. Qed.

(** A call of [process_event_log] is entered once, and nothing inside it
    enters it again or lists a folder. *)
Lemma process_event_log_history (file_path output_dir : string) w r w' :
  process_event_log file_path output_dir w = (r, w') ->
  exists t,
    history w' = history w ++ EvProcess file_path output_dir :: t
    /\ Forall inner t.
Proof.
  unfold process_event_log. rewrite bind_record. cbv beta. intros Hrun.
  match type of Hrun with
  | ?m _ = _ => assert (respects (effect inner any_path) m) as Hrest
  end.
  { effects_with ltac:(first
      [ apply load_event_log_effect
      | apply discover_models_effect
      | apply process_model_effect
      | apply save_conformance_to_csv_effect ]). }
  apply Hrest in Hrun as ((t & Ht & Hinner) & _).
  exists t. split; [|done]. rewrite Ht. cbn. by rewrite <- app_assoc.
Qed.


Lemma main_unfold (input_folder output_base_dir : string)
    (entries : list DirEntry) w :
  scandir input_folder = Ok entries ->
  main input_folder output_base_dir w
  = for_each (xes_files entries) [] (process_file output_base_dir)
      (add_history [EvCall ScanDir] w).
Proof. intros Hls. unfold main, call, bind, record, lift. by rewrite Hls. Qed.

Lemma process_file_history (output_base_dir : string)
    (results : results_dict) (file_entry : DirEntry) w r w' :
  process_file output_base_dir results file_entry w = (r, w') ->
  exists t,
    history w' = history w
                 ++ EvProcess (path file_entry)
                      (path_join output_base_dir (name file_entry)) :: t
    /\ Forall inner t.
Proof.
  unfold process_file, bind.
  destruct (process_event_log _ _ _) as [[x|e] w1] eqn:Hrun;
    intros [= <- <-]; by eapply process_event_log_history.
Qed.

(** The loop of [main] calls [process_event_log] on the files of its
    list, in the order of the list, until one call raises. *)
Lemma main_loop_history (output_base_dir : string) (l : list DirEntry) :
  forall (results : results_dict) w r w',
    for_each l results (process_file output_base_dir) w = (r, w') ->
    exists done rest,
      l = done ++ rest
      /\ processed (history w')
         = processed (history w) ++ map (call_of output_base_dir) done
      /\ listings (history w') = listings (history w)
      /\ (is_ok r = true -> rest = []).
Proof.
  induction l as [|x l IH]; intros results w r w' Hrun.
  - injection Hrun as <- <-. exists [], []. cbn. by rewrite app_nil_r.
  - cbn [for_each] in Hrun. unfold bind in Hrun.
    destruct (process_file _ _ _ _) as [[results'|e] w1] eqn:Hx.
    + apply process_file_history in Hx as (t & Ht & Hinner).
      apply IH in Hrun as (done & rest & -> & Hp & Hl & Hok).
      exists (x :: done), rest. repeat split; [| |done].
      * rewrite Hp, Ht, processed_app, processed_entered by done.
        by rewrite <- app_assoc.
      * rewrite Hl, Ht, listings_app, listings_entered by done. lia.
    + injection Hrun as <- <-.
      apply process_file_history in Hx as (t & Ht & Hinner).
      exists [x], l. repeat split; [| |done].
      * by rewrite Ht, processed_app, processed_entered.
      * rewrite Ht, listings_app, listings_entered by done. lia.
Qed.

(** The files [main] selects: the entries that are files and whose name
    is something followed by [.xes]. *)
Lemma elem_of_xes_files (entries : list DirEntry) (entry : DirEntry) :
  entry ∈ xes_files entries
  <-> entry ∈ entries /\ is_file entry = true
      /\ exists stem, name entry = (stem ++ ".xes")%string.
Proof.
  unfold xes_files. rewrite sort_by_perm.
  rewrite !list_elem_of_In, filter_In. unfold is_xes_file.
  rewrite andb_true_iff, endswith_spec. done.
Qed.

(** C3: [main] passes the selected files to [process_event_log] in the
    order of [sort_by name]: the calls made, in order, are an initial part
    of the sorted list (all of it when [main] returns), the sorted list is
    a rearrangement of the selected entries whatever the order in which the
    folder lists them, and the names of the files processed ascend in the
    lexicographic order of their characters. *)
Theorem main_processes_files_in_name_order
    (input_folder output_base_dir : string) (entries : list DirEntry)
    (w : World) r (w' : World) :
  scandir input_folder = Ok entries ->
  main input_folder output_base_dir w = (r, w') ->
  exists done rest,
    sort_by name (List.filter is_xes_file entries) = done ++ rest
    /\ processed (history w')
       = processed (history w) ++ map (call_of output_base_dir) done
    /\ (is_ok r = true -> rest = [])
    /\ StronglySorted (key_le name) done
    /\ done ++ rest ≡ₚ List.filter is_xes_file entries.
Proof.
  intros Hls Hrun. rewrite (main_unfold _ _ entries) in Hrun by done.
  apply main_loop_history in Hrun as (done & rest & Hl & Hp & _ & Hok).
  exists done, rest. unfold xes_files in Hl. split; [done|].
  split. { rewrite Hp. cbn. by rewrite processed_app, app_nil_r. }
  split; [done|]. split.
  - eapply StronglySorted_app_1_l. rewrite <- Hl. apply sort_by_sorted.
  - rewrite <- Hl. apply sort_by_perm.
Qed.

(** C4: an entry of the folder is selected exactly when it is a file and
    its name ends in [.xes]; [process_event_log] is called on selected
    entries only, and on every one of them when [main] returns; and the
    input side is listed once, so nothing below the folder is looked at. *)
Theorem main_selects_exactly_the_xes_files
    (input_folder output_base_dir : string) (entries : list DirEntry)
    (w : World) r (w' : World) :
  scandir input_folder = Ok entries ->
  main input_folder output_base_dir w = (r, w') ->
  (forall entry,
     entry ∈ xes_files entries
     <-> entry ∈ entries /\ is_file entry = true
         /\ exists stem, name entry = (stem ++ ".xes")%string)
  /\ (exists done,
        processed (history w')
          = processed (history w) ++ map (call_of output_base_dir) done
        /\ (forall entry,
              entry ∈ done ->
              entry ∈ entries /\ is_file entry = true
              /\ endswith (name entry) ".xes" = true)
        /\ (is_ok r = true ->
            forall entry,
              entry ∈ entries -> is_file entry = true ->
              endswith (name entry) ".xes" = true -> entry ∈ done))
  /\ listings (history w') = S (listings (history w)).
Proof.
  intros Hls Hrun. rewrite (main_unfold _ _ entries) in Hrun by done.
  apply main_loop_history in Hrun as (done & rest & Hl & Hp & Hn & Hok).
  split; [apply elem_of_xes_files|]. split.
  - exists done. split.
    { rewrite Hp. cbn. by rewrite processed_app, app_nil_r. }
    split.
    + intros entry Hentry.
      assert (entry ∈ xes_files entries) as Hsel.
      { rewrite Hl. apply elem_of_app. by left. }
      apply elem_of_xes_files in Hsel as (? & ? & ?).
      by rewrite endswith_spec.
    + intros Hr entry Hin Hfile Hname.
      rewrite (Hok Hr), app_nil_r in Hl. rewrite <- Hl.
      apply elem_of_xes_files. by rewrite <- endswith_spec.
  - rewrite Hn. unfold add_history. cbn [history].
    rewrite listings_app. change (listings [EvCall ScanDir]) with 1. lia.
Qed.

End Main.

Section Outputs.

Context `{Platform : OS}.

#[local] Open Scope list_scope.





End Outputs.

(** ** Running the script a second time *)

Section Replay.

Context `{Platform : OS}.

#[local] Open Scope list_scope.



(** *** The steps of the script *)









(** *** Sequencing *)



(** The clock may read differently the second time. *)
Lemma replays_time : replays (fun _ _ => True) time time.
Proof. intros s a s' t [= <- <-] _. by eexists _, _. Qed.








(** Without [exist_ok], [os.makedirs] refuses a directory that is
    there, as it is after a first run. *)
Lemma makedirs_without_exist_ok (p : string) (w : World) :
  fs w !! p = Some Dir ->
  (makedirs p false w).1 = Raise (FileExistsError p).
Proof. intros Hp. unfold makedirs, bind, record. cbn. by rewrite Hp. Qed.


End Replay.

(** * The theorems at work on the concrete library *)

Section Witnesses.

#[local] Open Scope list_scope.

Import Demo.

Lemma returned_ok {A W} (x : result A * W) (d : A) :
  is_ok x.1 = true -> x = (Ok (returned x d), x.2).
Proof. by destruct x as [[a|e] w]. Qed.

Lemma raised_eta {A W} (x : result A * W) (e : exn) :
  x.1 = Raise e -> x = (Raise e, x.2).
Proof. destruct x as [r w]. by intros <-. Qed.

Lemma pair_eta {A W} (x : A * W) : x = (x.1, x.2).
Proof. by destruct x. Qed.


Lemma csv_has_one_row_per_algorithm_witness :
  exists rows,
    fs (one_log never).2 !! conformance_file "output/log1.xes"
      = Some (File (Rows (fieldnames :: rows)))
    /\ length rows = 4
    /\ map (hd "") rows = ["alpha"; "inductive"; "heuristics"; "ilp"].
Proof.
  refine (@csv_has_one_row_per_algorithm (lib never) (os never)
            "in/log1.xes" "output/log1.xes" (empty_world never)
            (returned (one_log never) ([], [])) (one_log never).2
            (returned_ok _ _ _)).
  vm_compute. reflexivity.
Defined.

Lemma main_processes_files_in_name_order_witness :
  exists done rest,
    sort_by name (List.filter is_xes_file listing) = done ++ rest
    /\ processed (history (whole_run never).2)
       = processed (history (empty_world never))
         ++ map (call_of "output/") done
    /\ (is_ok (whole_run never).1 = true -> rest = [])
    /\ StronglySorted (key_le name) done
    /\ done ++ rest ≡ₚ List.filter is_xes_file listing.
Proof.
  refine (@main_processes_files_in_name_order (lib never) (os never)
            "in/" "output/" listing (empty_world never)
            (whole_run never).1 (whole_run never).2 _ (pair_eta _)).
  reflexivity.
Defined.

Lemma main_selects_exactly_the_xes_files_witness :
  (forall entry,
     entry ∈ xes_files listing
     <-> entry ∈ listing /\ is_file entry = true
         /\ exists stem, name entry = (stem ++ ".xes")%string)
  /\ (exists done,
        processed (history (whole_run never).2)
          = processed (history (empty_world never))
            ++ map (call_of "output/") done
        /\ (forall entry,
              entry ∈ done ->
              entry ∈ listing /\ is_file entry = true
              /\ endswith (name entry) ".xes" = true)
        /\ (is_ok (whole_run never).1 = true ->
            forall entry,
              entry ∈ listing -> is_file entry = true ->
              endswith (name entry) ".xes" = true -> entry ∈ done))
  /\ listings (history (whole_run never).2)
     = S (listings (history (empty_world never))).
Proof.
  refine (@main_selects_exactly_the_xes_files (lib never) (os never)
            "in/" "output/" listing (empty_world never)
            (whole_run never).1 (whole_run never).2 _ (pair_eta _)).
  reflexivity.
Defined.

Lemma miner_failure_aborts_the_log_witness :
  exists w',
    @process_event_log (lib one_miner) (os one_miner)
      "in/log1.xes" (path_join "output/" "log1.xes")
      (empty_world one_miner)
    = (Raise (LibraryError "heuristics failed"), w')
    /\ @for_each (lib one_miner) _ _
         [ {| name := "log1.xes"; path := "in/log1.xes"; is_file := true |};
           {| name := "log2.xes"; path := "in/log2.xes"; is_file := true |} ]
         [] (@process_file (lib one_miner) (os one_miner) "output/")
         (empty_world one_miner)
       = (Raise (LibraryError "heuristics failed"), w')
    /\ fs w' = fs (empty_world one_miner).
Proof.
  refine (@miner_failure_aborts_the_log (lib one_miner) (os one_miner)
            "output/"
            {| name := "log1.xes"; path := "in/log1.xes"; is_file := true |}
            [ {| name := "log2.xes"; path := "in/log2.xes";
                 is_file := true |} ]
            [] event_log (LibraryError "heuristics failed")
            (empty_world one_miner) _ _);
    reflexivity.
Defined.

Lemma execution_times_file_has_two_header_lines_and_four_pairs_witness :
  exists pairs,
    fs (one_log never).2 !! execution_times_file "output/log1.xes"
      = Some (File (Lines ("Algorithm Execution Times (seconds)"
                           :: "================================"
                           :: pairs)))
    /\ pairs
       = map (fun '(algorithm, i) =>
                (algorithm ++ ": "
                 ++ @format_3f (lib never)
                      (@elapsed (lib never) (os never)
                         (i + ticks (empty_world never))))%string)
           [("alpha", 0); ("inductive", 2); ("heuristics", 4); ("ilp", 6)]
    /\ length pairs = 4.
Proof.
  refine (@execution_times_file_has_two_header_lines_and_four_pairs
            (lib never) (os never)
            "in/log1.xes" "output/log1.xes" (empty_world never)
            (returned (one_log never) ([], [])) (one_log never).2
            (returned_ok _ _ _)).
  vm_compute. reflexivity.
Defined.

(** C6 as the specification words it fails: the execution-times file of a
    processed log has six lines, not four. *)
Lemma execution_times_file_has_not_four_lines :
  is_ok (one_log never).1 = true
  /\ ~ exists lines,
         fs (one_log never).2 !! execution_times_file "output/log1.xes"
           = Some (File (Lines lines))
         /\ length lines = 4.
Proof.
  split; [by vm_compute|]. intros (lines & Hfile & Hlen).
  vm_compute in Hfile. injection Hfile as <-. discriminate Hlen.
Qed.

Lemma execution_times_written_before_later_steps_witness :
  (fs (@discover_models (lib one_picture) (os one_picture) event_log
         "output/log1.xes"
         (entered "in/log1.xes" "output/log1.xes"
            (empty_world one_picture))).2
     !! "output/log1.xes" = Some Dir
   /\ fs (@discover_models (lib one_picture) (os one_picture) event_log
            "output/log1.xes"
            (entered "in/log1.xes" "output/log1.xes"
               (empty_world one_picture))).2
        !! execution_times_file "output/log1.xes"
      = Some (File (Lines (@timing_lines (lib one_picture)
                             (os one_picture)
                             (ticks (empty_world one_picture))))))
  /\ exists w2,
       one_log one_picture = (Raise (LibraryError "graphviz failed"), w2)
       /\ fs w2 !! execution_times_file "output/log1.xes"
          = Some (File (Lines (@timing_lines (lib one_picture)
                                 (os one_picture)
                                 (ticks (empty_world one_picture)))))
       /\ fs w2 !! conformance_file "output/log1.xes"
          = fs (empty_world one_picture)
            !! conformance_file "output/log1.xes".
Proof.
  assert (@discover_models (lib one_picture) (os one_picture) event_log
            "output/log1.xes"
            (entered "in/log1.xes" "output/log1.xes"
               (empty_world one_picture))
          = (Ok (returned
                   (@discover_models (lib one_picture) (os one_picture)
                      event_log "output/log1.xes"
                      (entered "in/log1.xes" "output/log1.xes"
                         (empty_world one_picture))) []),
             (@discover_models (lib one_picture) (os one_picture) event_log
                "output/log1.xes"
                (entered "in/log1.xes" "output/log1.xes"
                   (empty_world one_picture))).2)) as Hdisc.
  { apply returned_ok. vm_compute. reflexivity. }
  pose proof (@execution_times_written_before_later_steps
                (lib one_picture) (os one_picture)
                "in/log1.xes" "output/log1.xes" event_log _
                (empty_world one_picture) _ eq_refl Hdisc)
    as (Hfiles & _ & Hlater).
  split; [exact Hfiles|].
  eexists. apply Hlater. apply raised_eta. vm_compute. reflexivity.
Defined.



End Witnesses.

(** * Further properties of the script *)

Section Writers.

Context `{Platform : OS}.

#[local] Open Scope list_scope.




(** X4: when the output directory's path is a regular file,
    [visualize_model], [export_pnml] and [save_conformance_to_csv] each
    raise [FileExistsError] for it at their first step, [os.makedirs], and
    change no file; [exist_ok] does not cover a path that is not a
    directory. *)
Theorem writers_refuse_a_file_as_output_directory (model : PetriNet)
    (initial_marking final_marking : Marking)
    (algorithm_name output_dir : string)
    (metrics_list : list (dict value)) (c : content) (w : World) :
  fs w !! output_dir = Some (File c) ->
  visualize_model model initial_marking final_marking algorithm_name
    output_dir w
  = (Raise (FileExistsError output_dir),
     add_history [EvMakedirs output_dir] w)
  /\ export_pnml model initial_marking final_marking algorithm_name
       output_dir w
     = (Raise (FileExistsError output_dir),
        add_history [EvMakedirs output_dir] w)
  /\ save_conformance_to_csv metrics_list output_dir w
     = (Raise (FileExistsError output_dir),
        add_history [EvMakedirs output_dir] w).
Proof.
  intros Hod.
  assert (makedirs output_dir true w
          = (Raise (FileExistsError output_dir),
             add_history [EvMakedirs output_dir] w)) as Hmk.
  { unfold makedirs, bind, record. cbn. by rewrite Hod. }
  unfold visualize_model, export_pnml, save_conformance_to_csv.
  by rewrite !(bind_run_raise _ _ _ _ _ Hmk).
Qed.

End Writers.

Section Loading.

Context `{Platform : OS}.

#[local] Open Scope list_scope.

(** X5: when reading the log raises, [process_event_log] raises the same
    exception right away: no discovery call is made, the clock is not
    read, and nothing is written. *)
Theorem load_failure_aborts_before_discovery (file_path output_dir : string)
    (e : exn) (w : World) :
  read_xes file_path = Raise e ->
  exists w',
    process_event_log file_path output_dir w = (Raise e, w')
    /\ fs w' = fs w
    /\ ticks w' = ticks w
    /\ history w'
       = history w ++ [EvProcess file_path output_dir; EvCall ReadXes].
Proof.
  intros Hlog. rewrite (process_event_log_unread _ _ e) by done.
  by eexists.
Qed.

(** The nets a successful discovery returns. *)
Lemma discover_models_nets (event_log : EventLog)
    (output_dir : string) (w : World) (models : dict net_and_markings)
    (w' : World) :
  discover_models event_log output_dir w = (Ok models, w') ->
  exists alpha process_tree inductive heuristics ilp,
    alpha_miner_apply event_log = Ok alpha
    /\ inductive_miner_apply event_log = Ok process_tree
    /\ convert_to_petri_net process_tree = Ok inductive
    /\ heuristics_miner_apply event_log = Ok heuristics
    /\ ilp_miner_apply event_log = Ok ilp
    /\ models = [ ("alpha", alpha); ("inductive", inductive);
                  ("heuristics", heuristics); ("ilp", ilp) ]
    /\ ticks w' = 8 + ticks w.
Proof.
  intros (Hcalls & _ & _ & ->)%discover_models_ok.
  unfold discovery_calls in Hcalls.
  destruct (alpha_miner_apply event_log) as [alpha|]; [|done].
  destruct (inductive_miner_apply event_log) as [tree|]; [|done].
  destruct (convert_to_petri_net tree) as [inductive|] eqn:Hconv; [|done].
  destruct (heuristics_miner_apply event_log) as [heuristics|]; [|done].
  destruct (ilp_miner_apply event_log) as [ilp|]; [|done].
  injection Hcalls as <-.
  by exists alpha, tree, inductive, heuristics, ilp.
Qed.

(** X12: what [discover_models] returns when it returns: a dictionary
    with the keys [alpha], [inductive], [heuristics], [ilp] in this order,
    holding what the alpha, heuristics and ILP miners returned for the log
    and, under [inductive], the Petri net that [convert_to_petri_net] made
    of the process tree the inductive miner returned. *)
Theorem discover_models_returns_the_four_nets (event_log : EventLog)
    (output_dir : string) (w : World) (models : dict net_and_markings)
    (w' : World) :
  discover_models event_log output_dir w = (Ok models, w') ->
  exists alpha process_tree inductive heuristics ilp,
    alpha_miner_apply event_log = Ok alpha
    /\ inductive_miner_apply event_log = Ok process_tree
    /\ convert_to_petri_net process_tree = Ok inductive
    /\ heuristics_miner_apply event_log = Ok heuristics
    /\ ilp_miner_apply event_log = Ok ilp
    /\ models = [ ("alpha", alpha); ("inductive", inductive);
                  ("heuristics", heuristics); ("ilp", ilp) ]
    /\ ticks w' = 8 + ticks w.
Proof. apply discover_models_nets. Qed.

End Loading.

Section Metrics.

Context `{Lib : PM4Py}.

#[local] Open Scope list_scope.

(** X10: [calc_conformance] makes the five library calls, in the order
    alignment fitness, token-based fitness, alignment precision,
    token-based precision, generalization, whichever of them raise: a
    failure does not skip the metrics after it.  It makes no other call,
    does not read the clock and changes no file. *)
Theorem calc_conformance_attempts_every_metric (event_log : EventLog)
    (model : PetriNet) (initial_marking final_marking : Marking)
    (algorithm_name : string) (w : World) :
  exists metrics w',
    calc_conformance event_log model initial_marking final_marking
      algorithm_name w = (Ok metrics, w')
    /\ history w'
       = history w
         ++ [ EvCall FitnessAlignments; EvCall FitnessTokenBasedReplay;
              EvCall PrecisionAlignments; EvCall PrecisionTokenBasedReplay;
              EvCall GeneralizationTbr ]
    /\ ticks w' = ticks w
    /\ fs w' = fs w.
Proof. rewrite calc_conformance_run. by eexists _, _. Qed.

(** X11: when the library's fitness result has no [log_fitness] entry,
    the [KeyError] of the subscript is caught like a failure of the call:
    the fitness is recorded as [None], its CSV field is empty, and the
    three metrics that are not fitness values are recorded as computed. *)
Theorem missing_log_fitness_is_recorded_as_none (event_log : EventLog)
    (model : PetriNet) (initial_marking final_marking : Marking)
    (algorithm_name : string) (w : World) (d : dict float) :
  fitness_alignments event_log model initial_marking final_marking = Ok d ->
  dict_get d "log_fitness" = None ->
  exists metrics w' fields,
    calc_conformance event_log model initial_marking final_marking
      algorithm_name w = (Ok metrics, w')
    /\ dict_get metrics "fitness_alignments" = Some VNone
    /\ written_as metrics fields
    /\ fields !! 1 = Some ""
    /\ dict_get metrics "precision_alignments"
       = Some (recorded
                 (precision_alignments
                    event_log model initial_marking final_marking))
    /\ dict_get metrics "precision_token_based"
       = Some (recorded
                 (precision_token_based_replay
                    event_log model initial_marking final_marking))
    /\ dict_get metrics "generalization"
       = Some (recorded
                 (generalization_tbr
                    event_log model initial_marking final_marking)).
Proof.
  intros Hfit Hkey. rewrite calc_conformance_run.
  exists (metrics_of algorithm_name event_log model
            initial_marking final_marking), (add_history conformance_calls w),
    (csv_record event_log
       (algorithm_name, (model, initial_marking, final_marking))).
  assert (log_fitness
            (fitness_alignments event_log model initial_marking final_marking)
          = Raise (KeyError "log_fitness")) as Hraise.
  { rewrite Hfit. unfold log_fitness, subscript. by rewrite Hkey. }
  split; [done|]. split.
  { unfold metrics_of, metric_computations. cbn. by rewrite Hraise. }
  split.
  { by apply (written_as_metrics_of event_log
                (algorithm_name, (model, initial_marking, final_marking))). }
  split; [|done].
  rewrite csv_record_lookup. unfold metric_computations. cbn.
  by rewrite Hraise.
Qed.

End Metrics.

Section Nothing.

Context `{Platform : OS}.

#[local] Open Scope list_scope.

Lemma filter_nothing {A} (f : A -> bool) (l : list A) :
  Forall (fun x => f x = false) l -> List.filter f l = [].
Proof.
  induction 1 as [|x l Hx _ IH]; [done|]. cbn. by rewrite Hx.
Qed.

(** X13: when no entry of the input folder is a file whose name ends in
    [.xes], [main] returns the empty dictionary: it lists the folder and
    does nothing else, calls [process_event_log] on nothing and changes no
    file. *)
Theorem main_with_nothing_to_process (input_folder output_base_dir : string)
    (entries : list DirEntry) (w : World) :
  scandir input_folder = Ok entries ->
  Forall (fun entry => is_file entry && endswith (name entry) ".xes" = false)
    entries ->
  main input_folder output_base_dir w
  = (Ok [], add_history [EvCall ScanDir] w).
Proof.
  intros Hls Hnone. rewrite (main_unfold _ _ entries) by done.
  unfold xes_files. by rewrite (filter_nothing is_xes_file).
Qed.

End Nothing.

Section Outcome.

Context `{Platform : OS}.

#[local] Open Scope list_scope.

(** One turn of the loop over the models, when it returns. *)
Lemma process_model_ok (event_log : EventLog) (output_dir : string)
    (cm : list (dict value)) (pf : dict string) (alg : string)
    (m : PetriNet) (im fm : Marking) w acc w' :
  process_model event_log output_dir (cm, pf) (alg, (m, im, fm)) w
    = (Ok acc, w') ->
  exists gviz,
    pn_visualizer_apply m im fm = Ok gviz
    /\ acc = (cm ++ [metrics_of alg event_log m im fm],
              dict_set alg (pnml_file output_dir alg) pf)
    /\ fs w'
       = <[pnml_file output_dir alg := File (Pnml m im fm)]>
           (<[output_dir := Dir]>
              (<[png_file output_dir alg := File (Png gviz)]>
                 (<[output_dir := Dir]> (fs w)))).
Proof.
  unfold process_model. intros Hrun.
  rewrite (bind_run _ _ _ _ _ (calc_conformance_run _ _ _ _ _ _)) in Hrun.
  apply bind_ok_inv in Hrun as ([] & w1 & Hviz & Hrun).
  apply bind_ok_inv in Hrun as (f & w2 & Hexp & Hrun).
  apply visualize_model_ok in Hviz as (gviz & Hviz & _ & _ & ->).
  apply export_pnml_ok in Hexp as (-> & _ & _ & ->).
  injection Hrun as <- <-. by exists gviz.
Qed.

End Outcome.

(** Proves that two of the output paths of one log differ: the output
    directory and a file under it, or two files with different names. *)
Ltac paths_differ :=
  unfold png_file, pnml_file, execution_times_file, conformance_file;
  first
    [ apply path_join_ne_dir; [reflexivity|by cbv]
    | apply not_eq_sym, path_join_ne_dir; [reflexivity|by cbv]
    | let Heq := fresh in
      intros Heq; apply path_join_inj in Heq;
      [cbv in Heq; discriminate Heq|reflexivity|reflexivity] ].

(** Finds the content of one output path under the writes of a run. *)
Ltac find_written :=
  repeat first
    [ apply lookup_insert_eq
    | rewrite lookup_insert_ne by paths_differ ].

Section EndToEnd.

Context `{Platform : OS}.

#[local] Open Scope list_scope.

(** The files and the return value of a processed log. *)
Lemma process_event_log_outputs
    (file_path output_dir : string) (w : World)
    (r : dict net_and_markings * dict string) (w' : World) :
  process_event_log file_path output_dir w = (Ok r, w') ->
  exists event_log,
    read_xes file_path = Ok event_log
    /\ discovery_calls event_log = Ok r.1
    /\ r.2 = map (fun item : string * net_and_markings =>
                    (item.1,
                     path_join output_dir (item.1 ++ "_model.pnml")%string))
               r.1
    /\ fs w' !! output_dir = Some Dir
    /\ Forall
         (fun item : string * net_and_markings =>
            fs w' !! path_join output_dir (item.1 ++ "_model.pnml")%string
              = Some (File (Pnml item.2.1.1 item.2.1.2 item.2.2))
            /\ exists gviz,
                 pn_visualizer_apply item.2.1.1 item.2.1.2 item.2.2
                   = Ok gviz
                 /\ fs w' !! path_join output_dir
                                (item.1 ++ "_petri_net.png")%string
                    = Some (File (Png gviz)))
         r.1.
Proof.
  intros (event_log & models & w1 & cm & pf & w2
          & Hlog & Hdisc & Hloop & Hsave & ->)%process_event_log_ok.
  pose proof Hdisc as (Hcalls & _)%discover_models_ok.
  apply discover_models_nets in Hdisc
    as ([[a ai] af] & tree & [[i ii] if_] & [[h hi] hf] & [[p pi] pf_]
        & _ & _ & _ & _ & _ & -> & _).
  cbn [for_each] in Hloop.
  apply bind_ok_inv in Hloop as ([cm1 pf1] & u1 & H1 & Hloop).
  apply bind_ok_inv in Hloop as ([cm2 pf2] & u2 & H2 & Hloop).
  apply bind_ok_inv in Hloop as ([cm3 pf3] & u3 & H3 & Hloop).
  apply bind_ok_inv in Hloop as ([cm4 pf4] & u4 & H4 & Hloop).
  injection Hloop as <- <- <-.
  apply process_model_ok in H1 as (g1 & Hg1 & [= -> ->] & Hu1).
  apply process_model_ok in H2 as (g2 & Hg2 & [= -> ->] & Hu2).
  apply process_model_ok in H3 as (g3 & Hg3 & [= -> ->] & Hu3).
  apply process_model_ok in H4 as (g4 & Hg4 & [= -> ->] & Hu4).
  apply save_conformance_to_csv_ok in Hsave as (rows & _ & _ & _ & ->).
  cbn [fs]. rewrite Hu4, Hu3, Hu2, Hu1.
  fold (pnml_file output_dir "alpha") (pnml_file output_dir "inductive")
    (pnml_file output_dir "heuristics") (pnml_file output_dir "ilp")
    (png_file output_dir "alpha") (png_file output_dir "inductive")
    (png_file output_dir "heuristics") (png_file output_dir "ilp").
  exists event_log. split; [done|]. split; [done|]. split; [done|].
  split; [find_written|].
  cbn [fst snd].
  repeat (constructor; [split; [|eexists; split; [eassumption|]]|]);
    cbn [fst snd];
    try (fold (pnml_file output_dir "alpha")
           (pnml_file output_dir "inductive")
           (pnml_file output_dir "heuristics") (pnml_file output_dir "ilp")
           (png_file output_dir "alpha") (png_file output_dir "inductive")
           (png_file output_dir "heuristics") (png_file output_dir "ilp");
         find_written).
  constructor.
Qed.

(** X6: when [process_event_log] returns, each of the four discovered
    models has its two files in the output directory:
    [<algorithm>_model.pnml] holds the PNML of the net and its markings and
    [<algorithm>_petri_net.png] the picture the library rendered of it;
    later models and the CSV have overwritten none of them.  The function
    returns the models and, per algorithm, the path of its PNML file. *)
Theorem process_event_log_leaves_every_output
    (file_path output_dir : string) (w : World)
    (r : dict net_and_markings * dict string) (w' : World) :
  process_event_log file_path output_dir w = (Ok r, w') ->
  exists event_log,
    read_xes file_path = Ok event_log
    /\ discovery_calls event_log = Ok r.1
    /\ r.2 = map (fun item : string * net_and_markings =>
                    (item.1,
                     path_join output_dir (item.1 ++ "_model.pnml")%string))
               r.1
    /\ fs w' !! output_dir = Some Dir
    /\ Forall
         (fun item : string * net_and_markings =>
            fs w' !! path_join output_dir (item.1 ++ "_model.pnml")%string
              = Some (File (Pnml item.2.1.1 item.2.1.2 item.2.2))
            /\ exists gviz,
                 pn_visualizer_apply item.2.1.1 item.2.1.2 item.2.2
                   = Ok gviz
                 /\ fs w' !! path_join output_dir
                                (item.1 ++ "_petri_net.png")%string
                    = Some (File (Png gviz)))
         r.1.
Proof. apply process_event_log_outputs. Qed.

End EndToEnd.

Section Csv.

Context `{Lib : PM4Py}.

#[local] Open Scope list_scope.

(** The fields the csv writer makes of a dictionary follow the header,
    not the dictionary. *)
Lemma written_as_follows_header (metrics : dict value)
    (fields : list string) :
  written_as metrics fields ->
  Forall2
    (fun key field =>
       field = match dict_get metrics key with
               | Some v => csv_field v
               | None => ""
               end)
    fieldnames fields.
Proof.
  intros (row & Hrow & ->). unfold dict_to_list in Hrow.
  destruct (forallb _ _); [|done]. injection Hrow as <-.
  unfold fieldnames. cbn [map].
  repeat (constructor; [by destruct (dict_get metrics _)|]).
  constructor.
Qed.

(** X8: when [save_conformance_to_csv] returns, the CSV holds the header
    record and then one record per dictionary of the list, in the order of
    the list (none for the empty list).  Each record has one field per
    header name, in the order of the header whatever the order of the
    dictionary's keys: the text of the value under that name, and the empty
    string when the dictionary has no such key or holds [None]. *)
Theorem save_conformance_to_csv_writes_header_and_records
    (metrics_list : list (dict value)) (output_dir : string)
    (w w' : World) :
  save_conformance_to_csv metrics_list output_dir w = (Ok tt, w') ->
  exists rows,
    fs w' !! path_join output_dir "conformance_metrics.csv"
      = Some (File (Rows (fieldnames :: rows)))
    /\ Forall2
         (fun metrics fields =>
            Forall2
              (fun key field =>
                 field = match dict_get metrics key with
                         | Some v => csv_field v
                         | None => ""
                         end)
              fieldnames fields)
         metrics_list rows.
Proof.
  intros (rows & Hrows & _ & _ & ->)%save_conformance_to_csv_ok.
  exists rows. split; [apply lookup_insert_eq|].
  eapply Forall2_impl; [exact Hrows|]. apply written_as_follows_header.
Qed.




End Csv.

Section Results.

Context `{Platform : OS}.

#[local] Open Scope list_scope.

Lemma dict_set_new {V} (k : string) (v : V) (d : dict V) :
  k ∉ keys d -> dict_set k v d = d ++ [(k, v)].
Proof.
  induction d as [|[k' v'] d IH]; [done|]. cbn.
  rewrite not_elem_of_cons. intros [Hne Hnot].
  destruct (String.eqb_spec k' k) as [->|_]; [done|]. by rewrite IH.
Qed.

Lemma keys_app {V} (d1 d2 : dict V) : keys (d1 ++ d2) = keys d1 ++ keys d2.
Proof. apply map_app. Qed.

(** The loop of [main] adds one entry per file, under the file's name,
    holding what [process_event_log] returned for the file. *)
Lemma main_loop_results (output_base_dir : string) (l : list DirEntry) :
  forall (results0 : results_dict) w results w',
    NoDup (keys results0 ++ map name l) ->
    for_each l results0 (process_file output_base_dir) w = (Ok results, w') ->
    exists added,
      results = results0 ++ added
      /\ Forall2
           (fun entry (kv : string * (dict net_and_markings * dict string)) =>
              kv.1 = name entry
              /\ exists w1 w2,
                   process_event_log (path entry)
                     (path_join output_base_dir (name entry)) w1
                   = (Ok kv.2, w2))
           l added.
Proof.
  induction l as [|x l IH]; intros results0 w results w' Hdup Hrun.
  - injection Hrun as <- _. exists []. by rewrite app_nil_r.
  - cbn [for_each] in Hrun.
    apply bind_ok_inv in Hrun as (results1 & w1 & Hx & Hrun).
    unfold process_file in Hx.
    apply bind_ok_inv in Hx as (r & w0 & Hr & Hx). injection Hx as <- <-.
    cbn [map] in Hdup.
    assert (name x ∉ keys results0) as Hnew.
    { apply NoDup_app in Hdup as (_ & Hd & _). intros Hin.
      apply (Hd _ Hin). by left. }
    rewrite dict_set_new in Hrun by done.
    apply IH in Hrun as (added & -> & Hadded).
    + exists ((name x, r) :: added). rewrite <- app_assoc. split; [done|].
      constructor; [|done]. split; [done|]. by exists w, w0.
    + rewrite keys_app, <- app_assoc. exact Hdup.
Qed.

Lemma NoDup_names_filter (f : DirEntry -> bool) (l : list DirEntry) :
  NoDup (map name l) -> NoDup (map name (List.filter f l)).
Proof.
  induction l as [|x l IH]; [done|]. cbn [map List.filter].
  intros [Hx Hl]%NoDup_cons. destruct (f x); [|by apply IH].
  cbn [map]. apply NoDup_cons. split; [|by apply IH].
  intros Hin. apply Hx.
  apply list_elem_of_In, in_map_iff in Hin as (y & Hy & Hin).
  apply filter_In in Hin as [Hin _].
  apply list_elem_of_In, in_map_iff. by exists y.
Qed.

(** X7: when [main] returns, and no two entries of the folder have the
    same name, the dictionary it returns has one entry per selected file,
    in the order of processing, keyed by the file's name; the entry holds
    the four models under their names and, per algorithm, the path of the
    PNML file written under the file's own output directory. *)
Theorem main_returns_one_result_per_file
    (input_folder output_base_dir : string) (entries : list DirEntry)
    (w : World) (results : results_dict) (w' : World) :
  scandir input_folder = Ok entries ->
  NoDup (map name entries) ->
  main input_folder output_base_dir w = (Ok results, w') ->
  keys results = map name (xes_files entries)
  /\ Forall2
       (fun entry (kv : string * (dict net_and_markings * dict string)) =>
          kv.1 = name entry
          /\ keys kv.2.1 = ["alpha"; "inductive"; "heuristics"; "ilp"]
          /\ kv.2.2
             = map (fun algorithm_name =>
                      (algorithm_name,
                       path_join (path_join output_base_dir (name entry))
                         (algorithm_name ++ "_model.pnml")%string))
                 ["alpha"; "inductive"; "heuristics"; "ilp"])
       (xes_files entries) results.
Proof.
  intros Hls Hdup Hrun. rewrite (main_unfold _ _ entries) in Hrun by done.
  apply main_loop_results in Hrun as (added & -> & Hadded).
  2:{ cbn. unfold xes_files.
      rewrite (fmap_Permutation name _ _ (sort_by_perm name _)).
      by apply NoDup_names_filter. }
  cbn [app]. split.
  - unfold keys. induction Hadded as [|x kv l added [Hk _] _ IH]; [done|].
    cbn. by rewrite Hk, IH.
  - eapply Forall2_impl; [exact Hadded|].
    intros entry [k [models pf]] (Hk & w1 & w2 & Hr). cbn [fst snd] in *.
    apply process_event_log_outputs in Hr
      as (event_log & _ & Hcalls & Hpf & _). cbn [fst snd] in Hcalls, Hpf.
    apply discovery_calls_keys in Hcalls.
    split; [done|]. split; [done|].
    rewrite Hpf, <- Hcalls. unfold keys. by rewrite map_map.
Qed.

Lemma for_each_raise_inv {A S} (l : list A) (body : S -> A -> M S) :
  forall s w e w',
    for_each l s body w = (Raise e, w') ->
    exists before x after s1 w1,
      l = before ++ x :: after
      /\ for_each before s body w = (Ok s1, w1)
      /\ body s1 x w1 = (Raise e, w').
Proof.
  induction l as [|x l IH]; intros s w e w' Hrun; [done|].
  cbn [for_each] in Hrun. unfold bind in Hrun.
  destruct (body s x w) as [[s1|e1] w1] eqn:Hx.
  - apply IH in Hrun as (before & y & after & s2 & w2 & -> & Hb & Hy).
    exists (x :: before), y, after, s2, w2. split; [done|].
    split; [|done]. cbn [for_each]. by rewrite (bind_run _ _ _ _ _ Hx).
  - injection Hrun as <- <-. by exists [], x, l, s, w.
Qed.

(** X14: [main] has no failure policy of its own.  When it raises after
    listing the folder, the exception is the one [process_event_log] raised
    for one of the selected files; the files before it were processed to
    the end, the files sorted after it were never passed to
    [process_event_log], and the world is left as that failing call left
    it. *)
Theorem first_failure_ends_the_run (input_folder output_base_dir : string)
    (entries : list DirEntry) (w : World) (e : exn) (w' : World) :
  scandir input_folder = Ok entries ->
  main input_folder output_base_dir w = (Raise e, w') ->
  exists before file_entry after results1 w1,
    xes_files entries = before ++ file_entry :: after
    /\ for_each before [] (process_file output_base_dir)
         (add_history [EvCall ScanDir] w)
       = (Ok results1, w1)
    /\ process_event_log (path file_entry)
         (path_join output_base_dir (name file_entry)) w1
       = (Raise e, w')
    /\ processed (history w')
       = processed (history w)
         ++ map (call_of output_base_dir) (before ++ [file_entry]).
Proof.
  intros Hls Hrun. rewrite (main_unfold _ _ entries) in Hrun by done.
  apply for_each_raise_inv in Hrun
    as (before & x & after & results1 & w1 & Hl & Hbefore & Hx).
  exists before, x, after, results1, w1. split; [done|]. split; [done|].
  unfold process_file, bind in Hx.
  destruct (process_event_log _ _ _) as [[r|e1] w2] eqn:Hp; [done|].
  injection Hx as <- <-. split; [done|].
  apply process_event_log_history in Hp as (t & Ht & Hinner).
  apply main_loop_history in Hbefore as (done & rest & Hdr & Hpb & _ & Hok).
  rewrite (Hok eq_refl), app_nil_r in Hdr. subst done.
  rewrite Ht, processed_app, processed_entered, Hpb by done.
  unfold add_history. cbn [history].
  rewrite processed_app, app_nil_r, map_app, <- app_assoc. done.
Qed.

End Results.

(** * The further properties at work *)

Section Examples.

#[local] Open Scope list_scope.

Import Demo Edge.

Lemma ok_unit_eta {W} (x : result unit * W) :
  is_ok x.1 = true -> x = (Ok tt, x.2).
Proof. by destruct x as [[[]|e] w]. Qed.




Lemma writers_refuse_a_file_as_output_directory_witness :
  @visualize_model (lib never) "alpha" 1 0 "alpha" "out" taken
  = (Raise (FileExistsError "out"), add_history [EvMakedirs "out"] taken)
  /\ @export_pnml (lib never) "alpha" 1 0 "alpha" "out" taken
     = (Raise (FileExistsError "out"), add_history [EvMakedirs "out"] taken)
  /\ @save_conformance_to_csv (lib never) [shuffled] "out" taken
     = (Raise (FileExistsError "out"), add_history [EvMakedirs "out"] taken).
Proof.
  refine (@writers_refuse_a_file_as_output_directory (lib never)
            "alpha" 1 0 "alpha" "out" [shuffled]
            (Lines ["not a directory"]) taken _).
  vm_compute. reflexivity.
Defined.

Lemma load_failure_aborts_before_discovery_witness :
  exists w',
    @process_event_log (lib unreadable) (os unreadable)
      "in/log1.xes" "output/log1.xes" (empty_world unreadable)
    = (Raise (LibraryError "no such log"), w')
    /\ fs w' = fs (empty_world unreadable)
    /\ ticks w' = ticks (empty_world unreadable)
    /\ history w'
       = history (empty_world unreadable)
         ++ [EvProcess "in/log1.xes" "output/log1.xes"; EvCall ReadXes].
Proof.
  refine (@load_failure_aborts_before_discovery
            (lib unreadable) (os unreadable)
            "in/log1.xes" "output/log1.xes" (LibraryError "no such log")
            (empty_world unreadable) _).
  reflexivity.
Defined.

Lemma discover_models_returns_the_four_nets_witness :
  exists alpha process_tree inductive heuristics ilp,
    @alpha_miner_apply (lib never) event_log = Ok alpha
    /\ @inductive_miner_apply (lib never) event_log = Ok process_tree
    /\ @convert_to_petri_net (lib never) process_tree = Ok inductive
    /\ @heuristics_miner_apply (lib never) event_log = Ok heuristics
    /\ @ilp_miner_apply (lib never) event_log = Ok ilp
    /\ returned discovered []
       = [ ("alpha", alpha); ("inductive", inductive);
           ("heuristics", heuristics); ("ilp", ilp) ]
    /\ ticks discovered.2 = 8 + ticks (empty_world never).
Proof.
  refine (@discover_models_returns_the_four_nets (lib never) (os never)
            event_log "out" (empty_world never)
            (returned discovered []) discovered.2 (returned_ok _ _ _)).
  vm_compute. reflexivity.
Defined.

Lemma missing_log_fitness_is_recorded_as_none_witness :
  exists metrics w' fields,
    @calc_conformance lib_without_log_fitness
      event_log "alpha" 1 0 "alpha" nothing = (Ok metrics, w')
    /\ dict_get metrics "fitness_alignments" = Some VNone
    /\ written_as metrics fields
    /\ fields !! 1 = Some ""
    /\ dict_get metrics "precision_alignments"
       = Some (recorded
                 (@precision_alignments lib_without_log_fitness
                    event_log "alpha" 1 0))
    /\ dict_get metrics "precision_token_based"
       = Some (recorded
                 (@precision_token_based_replay lib_without_log_fitness
                    event_log "alpha" 1 0))
    /\ dict_get metrics "generalization"
       = Some (recorded
                 (@generalization_tbr lib_without_log_fitness
                    event_log "alpha" 1 0)).
Proof.
  refine (@missing_log_fitness_is_recorded_as_none lib_without_log_fitness
            event_log "alpha" 1 0 "alpha" nothing
            [("percFitTraces", 1000)] _ _);
    reflexivity.
Defined.

Lemma main_with_nothing_to_process_witness :
  @main (lib never) os_without_logs "in/" "output/" (empty_world never)
  = (Ok [], add_history [EvCall ScanDir] (empty_world never)).
Proof.
  refine (@main_with_nothing_to_process (lib never) os_without_logs
            "in/" "output/" without_logs (empty_world never) _ _).
  - reflexivity.
  - repeat constructor.
Defined.

Lemma process_event_log_leaves_every_output_witness :
  exists event_log,
    @read_xes (lib never) "in/log1.xes" = Ok event_log
    /\ @discovery_calls (lib never) event_log
       = Ok (returned (one_log never) ([], [])).1
    /\ (returned (one_log never) ([], [])).2
       = map (fun item : string * @net_and_markings (lib never) =>
                (item.1,
                 path_join "output/log1.xes"
                   (item.1 ++ "_model.pnml")%string))
           (returned (one_log never) ([], [])).1
    /\ fs (one_log never).2 !! "output/log1.xes" = Some Dir
    /\ Forall
         (fun item : string * @net_and_markings (lib never) =>
            fs (one_log never).2
              !! path_join "output/log1.xes" (item.1 ++ "_model.pnml")%string
              = Some (File (Pnml item.2.1.1 item.2.1.2 item.2.2))
            /\ exists gviz,
                 @pn_visualizer_apply (lib never)
                   item.2.1.1 item.2.1.2 item.2.2 = Ok gviz
                 /\ fs (one_log never).2
                      !! path_join "output/log1.xes"
                           (item.1 ++ "_petri_net.png")%string
                    = Some (File (Png gviz)))
         (returned (one_log never) ([], [])).1.
Proof.
  refine (@process_event_log_leaves_every_output (lib never) (os never)
            "in/log1.xes" "output/log1.xes" (empty_world never)
            (returned (one_log never) ([], [])) (one_log never).2
            (returned_ok _ _ _)).
  vm_compute. reflexivity.
Defined.

Lemma save_conformance_to_csv_writes_header_and_records_witness :
  exists rows,
    fs saved.2 !! path_join "out" "conformance_metrics.csv"
      = Some (File (Rows (fieldnames :: rows)))
    /\ Forall2
         (fun metrics fields =>
            Forall2
              (fun key field =>
                 field = match dict_get metrics key with
                         | Some v => @csv_field (lib never) v
                         | None => ""
                         end)
              fieldnames fields)
         [shuffled] rows.
Proof.
  refine (@save_conformance_to_csv_writes_header_and_records (lib never)
            [shuffled] "out" (empty_world never) saved.2 (ok_unit_eta _ _)).
  vm_compute. reflexivity.
Defined.


Lemma main_returns_one_result_per_file_witness :
  keys (returned (whole_run never) []) = map name (xes_files listing)
  /\ Forall2
       (fun entry
            (kv : string
                  * (dict (@net_and_markings (lib never)) * dict string)) =>
          kv.1 = name entry
          /\ keys kv.2.1 = ["alpha"; "inductive"; "heuristics"; "ilp"]
          /\ kv.2.2
             = map (fun algorithm_name =>
                      (algorithm_name,
                       path_join (path_join "output/" (name entry))
                         (algorithm_name ++ "_model.pnml")%string))
                 ["alpha"; "inductive"; "heuristics"; "ilp"])
       (xes_files listing) (returned (whole_run never) []).
Proof.
  refine (@main_returns_one_result_per_file (lib never) (os never)
            "in/" "output/" listing (empty_world never)
            (returned (whole_run never) []) (whole_run never).2
            _ _ (returned_ok _ _ _)).
  - reflexivity.
  - apply (bool_decide_unpack _). vm_compute. exact I.
  - vm_compute. reflexivity.
Defined.

Lemma first_failure_ends_the_run_witness :
  exists before file_entry after results1 w1,
    xes_files listing = before ++ file_entry :: after
    /\ @for_each (lib one_miner) _ _ before []
         (@process_file (lib one_miner) (os one_miner) "output/")
         (add_history [EvCall ScanDir] (empty_world one_miner))
       = (Ok results1, w1)
    /\ @process_event_log (lib one_miner) (os one_miner) (path file_entry)
         (path_join "output/" (name file_entry)) w1
       = (Raise (LibraryError "heuristics failed"), (whole_run one_miner).2)
    /\ processed (history (whole_run one_miner).2)
       = processed (history (empty_world one_miner))
         ++ map (call_of "output/") (before ++ [file_entry]).
Proof.
  refine (@first_failure_ends_the_run (lib one_miner) (os one_miner)
            "in/" "output/" listing (empty_world one_miner)
            (LibraryError "heuristics failed") (whole_run one_miner).2
            _ (raised_eta _ _ _)).
  - reflexivity.
  - vm_compute. reflexivity.
Defined.

End Examples.
